(** * Tourist_website: the CSV loader and the filter of [tourist_website.py]

    A shallow embedding of [load_data] and of the filtering part of [main].

    The program is written against pandas.  A [DataFrame] is modelled by its
    column labels, its column dtypes and its rows (index label and cells), and
    each pandas operation the program calls ([rename], [dropna],
    [to_numeric], [Series.str.contains], [==], boolean indexing) by a function
    named after it.  Two collaborators stay abstract, as interfaces:
    the numeric parser behind [pd.to_numeric] and the regular-expression
    engine behind [Series.str.contains].

    Column labels may repeat, as they can once two headers share a slug;
    [df[label]] then gives a sub-frame, and the operations that need a Series
    raise as pandas does.  Columns are of object or of numeric dtype; boolean
    columns are not modelled.

    Text is modelled as [string] (8-bit characters); [lower] and [strip] act
    on the ASCII range, so a header with white space or letters outside ASCII
    (a no-break space, an accented capital) is outside the model.  A numeric
    cell carries the rational value of its numeral; float64 rounding is not
    modelled. *)

From stdpp Require Import base list strings gmap sorting.
From Stdlib Require Import Ascii QArith.

Close Scope Q_scope.
Open Scope string_scope.
Open Scope list_scope.

(** ** Python string methods used on the headers *)

Definition char_code (c : ascii) : nat := nat_of_ascii c.

(** [str.isspace] on one character: TAB..CR, FS..US and the space. *)
Definition isspace (c : ascii) : bool :=
  let n := char_code c in
  ((9 <=? n)%nat && (n <=? 13)%nat) || ((28 <=? n)%nat && (n <=? 32)%nat).

Fixpoint lstrip (s : string) : string :=
  match s with
  | EmptyString => EmptyString
  | String c s' => if isspace c then lstrip s' else s
  end.

Fixpoint rstrip (s : string) : string :=
  match s with
  | EmptyString => EmptyString
  | String c s' =>
      match rstrip s' with
      | EmptyString => if isspace c then EmptyString else String c EmptyString
      | r => String c r
      end
  end.

(** [s.strip()] *)
Definition strip (s : string) : string := rstrip (lstrip s).

Definition lower_char (c : ascii) : ascii :=
  let n := char_code c in
  if ((65 <=? n)%nat && (n <=? 90)%nat) then ascii_of_nat (n + 32) else c.

(** [s.lower()] *)
Fixpoint lower (s : string) : string :=
  match s with
  | EmptyString => EmptyString
  | String c s' => String (lower_char c) (lower s')
  end.

(** [s.replace(old, new)] for one-character [old] and [new]. *)
Fixpoint replace (old new : ascii) (s : string) : string :=
  match s with
  | EmptyString => EmptyString
  | String c s' => String (if Ascii.eqb c old then new else c) (replace old new s')
  end.

(** [str(c).strip().lower().replace(' ', '_')] *)
Definition slug (c : string) : string :=
  replace " " "_" (lower (strip c)).

(** ** Frames *)

Inductive cell : Type :=
  | CNull                (* NaN / None *)
  | CStr (s : string)
  | CNum (x : Q).

Global Instance Q_eq_dec : EqDecision Q.
Proof. solve_decision. Defined.

Global Instance cell_eq_dec : EqDecision cell.
Proof. solve_decision. Defined.

Inductive dtype : Type :=
  | DObject              (* object: strings and nulls *)
  | DNumeric.            (* int64 / float64 *)

Record DataFrame : Type := mkFrame {
  columns : list string;
  dtypes : list dtype;
  rows : list (nat * list cell)      (* index label, cells by position *)
}.

Definition Series : Type := (dtype * list cell)%type.

Definition notnull (c : cell) : bool :=
  match c with CNull => false | _ => true end.

Definition cell_at (i : nat) (r : nat * list cell) : cell :=
  default CNull (r.2 !! i).

(** Positions of a label among the column labels. *)
Fixpoint positions_from (n : nat) (label : string) (cols : list string) : list nat :=
  match cols with
  | [] => []
  | c :: cols' =>
      if String.eqb c label then n :: positions_from (S n) label cols'
      else positions_from (S n) label cols'
  end.

Definition positions (label : string) (cols : list string) : list nat :=
  positions_from 0 label cols.

(** [df[label]]: a missing label raises [KeyError], a label carried by one
    column gives that column as a Series, a label carried by several columns
    gives a sub-frame. *)
Inductive item : Type :=
  | Missing
  | Column (i : nat) (s : Series)
  | SubFrame.

Definition getitem (df : DataFrame) (label : string) : item :=
  match positions label (columns df) with
  | [] => Missing
  | [i] => Column i (default DObject (dtypes df !! i), map (cell_at i) (rows df))
  | _ => SubFrame
  end.

(** [label in df.columns] *)
Definition has_column (df : DataFrame) (label : string) : bool :=
  bool_decide (label ∈ columns df).

(** [df.rename(columns=m)]: labels that are keys of [m] are replaced. *)
Definition rename_labels (m : gmap string string) (cols : list string) : list string :=
  map (fun l => default l (m !! l)) cols.

Definition rename (m : gmap string string) (df : DataFrame) : DataFrame :=
  mkFrame (rename_labels m (columns df)) (dtypes df) (rows df).

(** A dict built from key/value pairs in order: a later pair overwrites. *)
Definition dict_of (kvs : list (string * string)) : gmap string string :=
  foldl (fun m kv => <[kv.1 := kv.2]> m) ∅ kvs.

(** [df.dropna(subset=labels)]: a row goes when any cell under one of the
    labels is null. *)
Definition row_complete (cols subset : list string) (r : nat * list cell) : bool :=
  forallb (fun i => notnull (cell_at i r))
          (mjoin (map (fun l => positions l cols) subset)).

Definition dropna (subset : list string) (df : DataFrame) : DataFrame :=
  mkFrame (columns df) (dtypes df)
          (List.filter (row_complete (columns df) subset) (rows df)).

(** ** The numeric parser behind [pd.to_numeric] *)

Class NumberSyntax := parse_number : string -> option Q.

(** One cell under [pd.to_numeric(..., errors='coerce')]. *)
Definition coerce_cell `{NumberSyntax} (c : cell) : cell :=
  match c with
  | CNull => CNull
  | CNum x => CNum x
  | CStr s => match parse_number s with Some x => CNum x | None => CNull end
  end.

(** [df[label] = pd.to_numeric(df[label], errors='coerce')] for the column at
    position [i]. *)
Definition assign_numeric `{NumberSyntax} (i : nat) (df : DataFrame) : DataFrame :=
  mkFrame (columns df)
          (<[i := DNumeric]> (dtypes df))
          (map (fun r => (r.1, alter coerce_cell i r.2)) (rows df)).

(** ** [load_data] *)

(** The ordered synonym table of [load_data] (a dict literal: its items are
    visited in the order written). *)
Definition synonyms : list (string * list string) :=
  [ ("name", ["name"; "destination"; "place"; "title"; "location"]);
    ("state", ["state"; "region"; "province"]);
    ("description", ["description"; "desc"; "details"; "about"]);
    ("popular_attractions",
       ["popular_attractions"; "attractions"; "popular_attraction"; "attraction"]);
    ("image_url",
       ["image_url"; "image"; "image_link"; "imageurl"; "photo"; "photo_url"]);
    ("latitude", ["latitude"; "lat"]);
    ("longitude", ["longitude"; "lon"; "long"; "lng"]) ].

Definition required_columns : list string :=
  ["name"; "state"; "description"; "popular_attractions"; "image_url"].

(** The inner loop: the first option that is a column label, if any. *)
Definition first_present (options cols : list string) : option string :=
  List.find (fun opt => bool_decide (opt ∈ cols)) options.

(** The outer loop: [found], a dict from canonical name to the bound label,
    kept in insertion order. *)
Definition find_columns (table : list (string * list string)) (cols : list string)
  : list (string * string) :=
  omap (fun entry => (fun opt => (entry.1, opt)) <$> first_present entry.2 cols) table.

(** [{found[k]: k for k in found}] *)
Definition rename_map (found : list (string * string)) : gmap string string :=
  dict_of (map (fun kv => (kv.2, kv.1)) found).

(** What [pd.read_csv] hands to the body of the [try]. *)
Inductive read_result : Type :=
  | ReadOk (df : DataFrame)
  | FileNotFoundError
  | EmptyDataError
  | OtherException (msg : string).

(** The failures of [load_data]: each is one [st.error] call followed by
    [return None].  [MissingColumns] carries the two values its message is
    formatted from. *)
Inductive LoadError : Type :=
  | NotFound
  | EmptyOrInvalid
  | MissingColumns (missing available : list string)
  | Unknown (msg : string).

(** The first [rename]: every label becomes its slug. *)
Definition normalize_columns (df : DataFrame) : DataFrame :=
  let orig_cols := columns df in
  let norm_cols := map slug orig_cols in
  rename (dict_of (zip orig_cols norm_cols)) df.

(** The second [rename], under [if rename_map:]: bound labels become
    canonical names. *)
Definition canonicalize_columns (df : DataFrame) : DataFrame :=
  let found := find_columns synonyms (columns df) in
  let rename_map := rename_map found in
  if bool_decide (rename_map = ∅) then df else rename rename_map df.

Definition missing_columns (df : DataFrame) : list string :=
  List.filter (fun c => negb (has_column df c)) required_columns.

Definition to_numeric_message : string :=
  "Error loading data: arg must be a list, tuple, 1-d array, or Series".

(** One turn of the loop over [('latitude', 'longitude')].  On a sub-frame
    [pd.to_numeric] raises [TypeError], which the last [except] reports. *)
Definition coerce_coordinate `{NumberSyntax} (coord : string) (df : DataFrame)
  : LoadError + DataFrame :=
  if has_column df coord then
    match getitem df coord with
    | Column i _ => inr (assign_numeric i df)
    | _ => inl (Unknown to_numeric_message)
    end
  else inr df.

Definition load_frame `{NumberSyntax} (df0 : DataFrame) : LoadError + DataFrame :=
  let df := canonicalize_columns (normalize_columns df0) in
  match missing_columns df with
  | (_ :: _) as missing => inl (MissingColumns missing (columns df))
  | [] =>
      let df := dropna ["name"; "state"] df in
      match coerce_coordinate "latitude" df with
      | inl e => inl e
      | inr df => coerce_coordinate "longitude" df
      end
  end.

Definition load_data `{NumberSyntax} (src : read_result) : LoadError + DataFrame :=
  match src with
  | ReadOk df0 => load_frame df0
  | FileNotFoundError => inl NotFound
  | EmptyDataError => inl EmptyOrInvalid
  | OtherException msg => inl (Unknown ("Error loading data: " +:+ msg))
  end.

(** ** The filters of [main] *)

Inductive PyError : Type :=
  | KeyError (label : string)
  | AttributeError        (* [.str] on something that holds no strings *)
  | ReError (pattern : string)
  | ValueError
  | NotModelled.          (* see [eq_scalar] *)

Inductive outcome (A : Type) : Type :=
  | Returned (a : A)
  | Raised (e : PyError).
Arguments Returned {A} a.
Arguments Raised {A} e.

Definition bind {A B : Type} (o : outcome A) (k : A -> outcome B) : outcome B :=
  match o with
  | Returned a => k a
  | Raised e => Raised e
  end.

Notation "'let!' x := o 'in' k" := (bind o (fun x => k))
  (at level 10, x name, o at level 200, k at level 200).

(** The regular-expression engine: [re.compile(pat, re.IGNORECASE)], [None]
    when it raises [re.error], otherwise the compiled pattern's [search] as a
    test on the subject. *)
Class RegexEngine := re_compile_icase : string -> option (string -> bool).

(** A cell against a compiled pattern: a cell that is not a string gives
    [na], which the call sets to [False]. *)
Definition text_hit (search : string -> bool) (c : cell) : bool :=
  match c with CStr s => search s | _ => false end.

(** [series.str.contains(pat, case=False, na=False)], with [regex=True] by
    default.  The [.str] accessor exists on object columns only. *)
Definition str_contains `{RegexEngine} (it : item) (label pat : string)
  : outcome (list bool) :=
  match it with
  | Missing => Raised (KeyError label)
  | SubFrame => Raised AttributeError
  | Column _ (DNumeric, _) => Raised AttributeError
  | Column _ (DObject, cells) =>
      match re_compile_icase pat with
      | None => Raised (ReError pat)
      | Some search => Returned (map (text_hit search) cells)
      end
  end.

(** A cell against a string under [==]. *)
Definition cell_is (value : string) (c : cell) : bool :=
  match c with CStr s => String.eqb s value | _ => false end.

(** [series == value] for a string [value].  When the label names a
    sub-frame the comparison gives a frame of booleans, and indexing by it is
    not modelled; [main] never gets there, since line 134 calls [.unique()]
    on the same item and raises.  The statements below keep to tables where
    [state] names one column. *)
Definition eq_scalar (it : item) (label value : string) : outcome (list bool) :=
  match it with
  | Missing => Raised (KeyError label)
  | SubFrame => Raised NotModelled
  | Column _ (_, cells) => Returned (map (cell_is value) cells)
  end.

(** [a | b] on boolean Series over the same index. *)
Definition mask_or (a b : list bool) : list bool := zip_with orb a b.

(** [df[mask]] *)
Definition boolean_index (df : DataFrame) (mask : list bool) : DataFrame :=
  mkFrame (columns df) (dtypes df)
          (map fst (List.filter snd (zip (rows df) mask))).

(** Lines 140-144 of [main]: the search box.  The mask is taken on [df]
    and applied to its copy.  The source breaks the mask expression after
    each [|] with no bracket around it, which Python does not parse; it is
    embedded as the one expression it spells. *)
Definition search_step `{RegexEngine} (df : DataFrame) (search_query : string)
  : outcome DataFrame :=
  if String.eqb search_query "" then Returned df
  else
    let! m1 := str_contains (getitem df "name") "name" search_query in
    let! m2 := str_contains (getitem df "description") "description" search_query in
    let! m3 := str_contains (getitem df "popular_attractions")
                            "popular_attractions" search_query in
    Returned (boolean_index df (mask_or (mask_or m1 m2) m3)).

(** Lines 146-147 of [main]: the state selector. *)
Definition state_step (filtered_df : DataFrame) (selected_state : string)
  : outcome DataFrame :=
  if String.eqb selected_state "All" then Returned filtered_df
  else
    let! m := eq_scalar (getitem filtered_df "state") "state" selected_state in
    Returned (boolean_index filtered_df m).

(** Lines 138-147 of [main]. *)
Definition apply_filters `{RegexEngine} (df : DataFrame)
    (search_query selected_state : string) : outcome DataFrame :=
  let! filtered_df := search_step df search_query in
  state_step filtered_df selected_state.

(** [row.get(label)] inside [iterrows]: [None] for a missing label. *)
Definition row_get (df : DataFrame) (label : string) (r : nat * list cell)
  : outcome cell :=
  match positions label (columns df) with
  | [] => Returned CNull
  | [i] => Returned (cell_at i r)
  | _ => Raised ValueError      (* truth value of a Series *)
  end.

(** Lines 157-170 of [main]: the markers put on the map, as index label and
    coordinates. *)
Fixpoint markers_of (df : DataFrame) (rs : list (nat * list cell))
  : outcome (list (nat * cell * cell)) :=
  match rs with
  | [] => Returned []
  | r :: rs' =>
      let! lat := row_get df "latitude" r in
      if notnull lat then
        let! lon := row_get df "longitude" r in
        let! rest := markers_of df rs' in
        Returned (if notnull lon then (r.1, lat, lon) :: rest else rest)
      else markers_of df rs'
  end.

Definition map_markers (df filtered_df : DataFrame) : outcome (list (nat * cell * cell)) :=
  if has_column df "latitude" && has_column df "longitude"
  then markers_of filtered_df (rows filtered_df)
  else Returned [].

(** ** Reference notions used in the statements *)

(** [found.get(k)] on the insertion-ordered dict. *)
Definition dict_get (d : list (string * string)) (k : string) : option string :=
  snd <$> List.find (fun kv => String.eqb kv.1 k) d.

(** The label under which a header slug is shown after the canonical
    renaming: the field it is bound to, or the slug itself. *)
Definition canonical_of (found : list (string * string)) (l : string) : string :=
  match List.find (fun kv => String.eqb kv.2 l) found with
  | Some kv => kv.1
  | None => l
  end.

(** The labels of the frame once both renamings are done. *)
Definition final_labels (df0 : DataFrame) : list string :=
  columns (canonicalize_columns (normalize_columns df0)).

(** The required fields that no header of the file binds. *)
Definition unbound_required (df0 : DataFrame) : list string :=
  List.filter
    (fun c => negb (bool_decide
       (is_Some (dict_get (find_columns synonyms (map slug (columns df0))) c))))
    required_columns.

Definition canonical_schema : list string :=
  ["name"; "state"; "description"; "popular_attractions"; "image_url";
   "latitude"; "longitude"].

(** A label carried by exactly one column. *)
Definition single_label (l : string) (cols : list string) : Prop :=
  exists i, positions l cols = [i].

(** Null, or a string that is empty once stripped. *)
Definition blank_cell (c : cell) : bool :=
  match c with
  | CNull => true
  | CStr s => String.eqb (strip s) ""
  | CNum _ => false
  end.

Definition is_number (c : cell) : bool :=
  match c with CNum _ => true | _ => false end.

(** The positions of the coordinate columns. *)
Definition coordinate_positions (labels : list string) : list nat :=
  positions "latitude" labels ++ positions "longitude" labels.

(** A row whose cells at the positions [js] went through the coercion. *)
Definition coerce_row `{NumberSyntax} (js : list nat) (r : nat * list cell)
  : nat * list cell :=
  (r.1, foldl (fun cs j => alter coerce_cell j cs) r.2 js).

Definition numeric_at (js : list nat) (ds : list dtype) : list dtype :=
  foldl (fun ds j => <[j := DNumeric]> ds) ds js.

(** A label carried by two columns or more. *)
Definition repeated (l : string) (cols : list string) : bool :=
  (1 <? length (positions l cols))%nat.

(** [needle in hay] on strings. *)
Fixpoint is_substring (needle hay : string) : bool :=
  String.prefix needle hay ||
  match hay with
  | EmptyString => false
  | String _ hay' => is_substring needle hay'
  end.

(** Case-insensitive substring test. *)
Definition icase_substring (q s : string) : bool :=
  is_substring (lower q) (lower s).

(** A text cell holds the query as a case-insensitive substring; a null cell
    holds nothing. *)
Definition cell_has (q : string) (c : cell) : bool :=
  match c with CStr s => icase_substring q s | _ => false end.

(** The row test of the search box for a compiled pattern and the three
    text columns at [i1], [i2], [i3]. *)
Definition row_hit (search : string -> bool) (i1 i2 i3 : nat) (r : nat * list cell)
  : bool :=
  text_hit search (cell_at i1 r) || text_hit search (cell_at i2 r)
  || text_hit search (cell_at i3 r).

(** The row test of the state selector for the state column at [j]. *)
Definition row_in_state (value : string) (j : nat) (r : nat * list cell) : bool :=
  cell_is value (cell_at j r).

(** A label that names one object column, at position [i]. *)
Definition text_column (df : DataFrame) (l : string) (i : nat) : Prop :=
  positions l (columns df) = [i] /\ default DObject (dtypes df !! i) = DObject.

(** ** The part of the pattern language fixed by the engine's interface *)

Definition is_ascii_char (c : ascii) : bool := (char_code c <? 128)%nat.

Definition is_ascii (s : string) : bool :=
  forallb is_ascii_char (String.list_ascii_of_string s).

(** Characters with a special meaning in a pattern. *)
Definition metachars : list ascii :=
  String.list_ascii_of_string ".^$*+?{}[]\|()".

Definition is_meta (c : ascii) : bool :=
  existsb (Ascii.eqb c) metachars.

(** A pattern of ordinary ASCII characters only. *)
Definition plain_pattern (pat : string) : bool :=
  forallb (fun c => is_ascii_char c && negb (is_meta c)) (String.list_ascii_of_string pat).

(** A pattern of ordinary ASCII characters and dots. *)
Definition dotted_pattern (pat : string) : bool :=
  forallb (fun c => is_ascii_char c && (Ascii.eqb c "." || negb (is_meta c)))
          (String.list_ascii_of_string pat).

(** One pattern character against one subject character, ignoring case: the
    dot takes anything but a line feed. *)
Definition char_match (p c : ascii) : bool :=
  if Ascii.eqb p "." then negb (Ascii.eqb c "010")
  else Ascii.eqb (lower_char p) (lower_char c).

Fixpoint match_here (pat s : string) : bool :=
  match pat with
  | EmptyString => true
  | String p pat' =>
      match s with
      | EmptyString => false
      | String c s' => char_match p c && match_here pat' s'
      end
  end.

(** [search] for a dotted pattern: a match at some offset. *)
Fixpoint dotted_search (pat s : string) : bool :=
  match_here pat s ||
  match s with
  | EmptyString => false
  | String _ s' => dotted_search pat s'
  end.

(** What is assumed of the engine: on dotted patterns and ASCII subjects it
    searches as [dotted_search]; an opening parenthesis alone does not
    compile. *)
Definition engine_lawful (E : RegexEngine) : Prop :=
  (forall pat, dotted_pattern pat = true ->
     exists search, re_compile_icase pat = Some search /\
       forall s, is_ascii s = true -> search s = dotted_search pat s) /\
  re_compile_icase "(" = None.

(** An engine for dotted patterns only, which refuses every other pattern. *)
Definition dotted_engine : RegexEngine :=
  fun pat => if dotted_pattern pat then Some (dotted_search pat) else None.

(** ** A number syntax for plain decimal numerals *)

Definition digit_of (c : ascii) : option Z :=
  let n := char_code c in
  if ((48 <=? n)%nat && (n <=? 57)%nat) then Some (Z.of_nat (n - 48)) else None.

(** Reads digits into [acc]; [None] on anything else. *)
Fixpoint read_digits (acc : Z) (s : string) : option Z :=
  match s with
  | EmptyString => Some acc
  | String c s' =>
      match digit_of c with
      | Some d => read_digits (10 * acc + d)%Z s'
      | None => None
      end
  end.

(** Reads [digits] or [digits.digits]: mantissa and number of decimals. *)
Fixpoint read_decimal (acc : Z) (seen : bool) (s : string) : option (Z * nat) :=
  match s with
  | EmptyString => if seen then Some (acc, 0%nat) else None
  | String c s' =>
      if Ascii.eqb c "." then
        match s' with
        | EmptyString => None
        | _ => if seen
               then (fun m => (m, String.length s')) <$> read_digits acc s'
               else None
        end
      else
        match digit_of c with
        | Some d => read_decimal (10 * acc + d)%Z true s'
        | None => None
        end
  end.

Definition decimal_value (md : Z * nat) : Q :=
  Qmake md.1 (Pos.pow 10 (Pos.of_nat md.2)).

Definition signed_value (sign : Z) (md : Z * nat) : Q :=
  match md.2 with
  | O => inject_Z (sign * md.1)
  | _ => decimal_value ((sign * md.1)%Z, md.2)
  end.

Definition decimal_syntax : NumberSyntax :=
  fun s =>
    match s with
    | String c s' =>
        if Ascii.eqb c "-"
        then signed_value (-1) <$> read_decimal 0 false s'
        else signed_value 1 <$> read_decimal 0 false s
    | EmptyString => None
    end.

(** ** The frames of the scenarios *)

(** Scenario A as [pd.read_csv] delivers it: five object columns and two
    numeric ones. *)
Definition scenario_A : DataFrame :=
  mkFrame
    ["Destination"; "Region"; "About"; "Attraction"; "Photo"; "Lat"; "Lng"]
    [DObject; DObject; DObject; DObject; DObject; DNumeric; DNumeric]
    [ (0%nat, [CStr "Taj Mahal"; CStr "Uttar Pradesh"; CStr "Iconic mausoleum";
               CStr "Taj Mahal;sunrise view"; CStr "http://x/img.jpg";
               CNum 27.1751%Q; CNum 78.0421%Q]) ].

Definition scenario_A_loaded : DataFrame :=
  mkFrame
    canonical_schema
    [DObject; DObject; DObject; DObject; DObject; DNumeric; DNumeric]
    [ (0%nat, [CStr "Taj Mahal"; CStr "Uttar Pradesh"; CStr "Iconic mausoleum";
               CStr "Taj Mahal;sunrise view"; CStr "http://x/img.jpg";
               CNum 27.1751%Q; CNum 78.0421%Q]) ].

(** A file whose only header is [Destination]. *)
Definition destination_only : DataFrame :=
  mkFrame ["Destination"] [DObject] [ (0%nat, [CStr "Goa"]) ].

(** The five required headers, and a first record whose name is three
    spaces: the parser strips nothing, so the cell is that string. *)
Definition whitespace_name : DataFrame :=
  mkFrame
    ["name"; "state"; "description"; "popular_attractions"; "image_url"]
    [DObject; DObject; DObject; DObject; DNumeric]
    [ (0%nat, [CStr "   "; CStr "Goa"; CStr "Beaches"; CStr "Baga"; CNull]);
      (1%nat, [CNull; CStr "Goa"; CStr "No name"; CNull; CNull]);
      (2%nat, [CStr "Amber Fort"; CStr "Rajasthan"; CStr "Hill fort"; CNull; CNull]) ].

(** Scenario D: a latitude column that holds a word. *)
Definition scenario_D : DataFrame :=
  mkFrame
    ["Name"; "State"; "Description"; "Popular Attractions"; "Image URL"; "Latitude"]
    [DObject; DObject; DObject; DObject; DNumeric; DObject]
    [ (0%nat, [CStr "Taj Mahal"; CStr "Uttar Pradesh"; CStr "Mausoleum";
               CStr "Sunrise view"; CNull; CStr "abc"]);
      (1%nat, [CStr "Amber Fort"; CStr "Rajasthan"; CStr "Hill fort";
               CNull; CNull; CStr "26.9855"]) ].

(** The required headers and one the program knows nothing about. *)
Definition extra_header : DataFrame :=
  mkFrame
    ["name"; "state"; "description"; "popular_attractions"; "image_url"; "Notes"]
    [DObject; DObject; DObject; DObject; DNumeric; DObject]
    [ (0%nat, [CStr "Taj Mahal"; CStr "Uttar Pradesh"; CStr "Mausoleum";
               CStr "Sunrise view"; CNull; CStr "crowded"]) ].

(** Scenario A with the longitude field left empty. *)
Definition latitude_only : DataFrame :=
  mkFrame
    ["Destination"; "Region"; "About"; "Attraction"; "Photo"; "Lat"; "Lng"]
    [DObject; DObject; DObject; DObject; DObject; DNumeric; DNumeric]
    [ (0%nat, [CStr "Taj Mahal"; CStr "Uttar Pradesh"; CStr "Iconic mausoleum";
               CStr "Taj Mahal;sunrise view"; CStr "http://x/img.jpg";
               CNum 27.1751%Q; CNull]) ].

(** Scenario C: a loaded table with two records. *)
Definition scenario_C : DataFrame :=
  mkFrame
    ["name"; "state"; "description"; "popular_attractions"; "image_url"]
    [DObject; DObject; DObject; DObject; DNumeric]
    [ (0%nat, [CStr "Taj Mahal"; CStr "Uttar Pradesh"; CStr "Iconic mausoleum";
               CStr "Sunrise view"; CNull]);
      (1%nat, [CStr "Amber Fort"; CStr "Rajasthan"; CStr "Hill fort"; CNull; CNull]) ].

(** ** The options of the state selector (line 134 of [main]) *)

(** [series.unique()]: the values in order of first appearance. *)
Fixpoint unique_from (seen values : list string) : list string :=
  match values with
  | [] => []
  | v :: values' =>
      if bool_decide (v ∈ seen) then unique_from seen values'
      else v :: unique_from (v :: seen) values'
  end.

Definition unique (values : list string) : list string := unique_from [] values.

(** The order of Python strings: character by character on the character
    codes, a proper prefix first. *)
Definition str_le (s t : string) : Prop := Is_true (String.leb s t).

Global Instance str_le_dec (s t : string) : Decision (str_le s t).
Proof. unfold str_le. apply _. Defined.

(** [sorted(values)] on strings.  The order is total and equal strings are
    the same string, so the result does not depend on the sorting method. *)
Definition sorted (values : list string) : list string := merge_sort str_le values.

(** The strings of the cells, when every cell holds one. *)
Definition text_values (cells : list cell) : option (list string) :=
  mapM (fun c => match c with CStr s => Some s | _ => None end) cells.

(** [['All'] + sorted(df['state'].unique().tolist())].  A sub-frame has no
    [unique]; a state column that holds nulls or numbers is not modelled. *)
Definition state_options (df : DataFrame) : outcome (list string) :=
  match getitem df "state" with
  | Missing => Raised (KeyError "state")
  | SubFrame => Raised AttributeError
  | Column _ (_, cells) =>
      match text_values cells with
      | Some states => Returned ("All" :: sorted (unique states))
      | None => Raised NotModelled
      end
  end.

(** ** The attractions of a card (lines 204-206 of [main]) *)

(** [s.split(sep)] for a one-character separator: the pieces between the
    separators, of which there is always at least one. *)
Fixpoint split (sep : ascii) (s : string) : list string :=
  match s with
  | EmptyString => [EmptyString]
  | String c s' =>
      if Ascii.eqb c sep then EmptyString :: split sep s'
      else match split sep s' with
           | piece :: pieces => String c piece :: pieces
           | [] => [String c EmptyString]
           end
  end.

(** [[a.strip() for a in str(value).split(',')]] for a value that is a
    string. *)
Definition attractions (value : string) : list string :=
  map strip (split "," value).

(** ** The map button of a card (line 209 of [main]) *)

(** [pd.notnull(row[label])] where a truth value is needed: under a label
    that several columns carry the value is a Series, whose truth value
    raises. *)
Definition row_notnull (df : DataFrame) (label : string) (r : nat * list cell)
  : outcome bool :=
  match positions label (columns df) with
  | [] => Raised (KeyError label)
  | [i] => Returned (notnull (cell_at i r))
  | _ => Raised ValueError
  end.

(** The condition of line 209; [label in row] asks for the label among the
    columns. *)
Definition view_on_map (df : DataFrame) (r : nat * list cell) : outcome bool :=
  if has_column df "latitude" && has_column df "longitude" then
    let! lat := row_notnull df "latitude" r in
    if lat then row_notnull df "longitude" r else Returned false
  else Returned false.

(** ** Further reference notions *)

(** Number of occurrences of a character. *)
Fixpoint count_char (c : ascii) (s : string) : nat :=
  match s with
  | EmptyString => 0
  | String d s' => (if Ascii.eqb d c then 1 else 0) + count_char c s'
  end.

Definition is_upper (c : ascii) : bool :=
  (65 <=? char_code c)%nat && (char_code c <=? 90)%nat.

(** A string of a cell that holds one. *)
Definition is_text (c : cell) : bool :=
  match c with CStr _ => true | _ => false end.

(** The character map of [slug] once the ends are stripped. *)
Definition slug_char (c : ascii) : ascii :=
  if Ascii.eqb (lower_char c) " " then "_"%char else lower_char c.

(** A string, character by character. *)
Fixpoint string_map (f : ascii -> ascii) (s : string) : string :=
  match s with
  | EmptyString => EmptyString
  | String c s' => String (f c) (string_map f s')
  end.

(** A file in which two headers share the slug [lat]. *)
Definition two_latitudes : DataFrame :=
  mkFrame
    ["name"; "state"; "description"; "popular_attractions"; "image_url"; "Lat"; "lat"]
    [DObject; DObject; DObject; DObject; DNumeric; DNumeric; DNumeric]
    [ (0%nat, [CStr "Taj Mahal"; CStr "Uttar Pradesh"; CStr "Mausoleum";
               CStr "Sunrise view"; CNull; CNum 27.1751%Q; CNum 27.1751%Q]) ].

(** ** Normalized headers, in the words of the specification *)






(** * Properties *)

(** Closes a decidable goal by evaluating its decision procedure. *)
Ltac by_evaluation := apply (bool_decide_unpack _); by vm_compute.

Arguments find_columns : simpl never.
Arguments slug : simpl never.
Arguments final_labels : simpl never.
Arguments canonical_of : simpl never.

(** ** Dicts and renaming *)

Lemma dict_of_nil : dict_of [] = ∅.
Proof. reflexivity. Qed.

Lemma dict_of_snoc (kvs : list (string * string)) (kv : string * string) :
  dict_of (kvs ++ [kv]) = <[kv.1 := kv.2]> (dict_of kvs).
Proof. unfold dict_of. by rewrite foldl_app. Qed.

Lemma dict_of_lookup_snoc (kvs : list (string * string)) kv (k : string) :
  dict_of (kvs ++ [kv]) !! k
  = if decide (kv.1 = k) then Some kv.2 else dict_of kvs !! k.
Proof. rewrite dict_of_snoc. apply lookup_insert. Qed.

(** A dict whose pairs all lie on the graph of [f] maps each key to its
    image. *)
Lemma dict_of_graph (f : string -> string) (l : list string) (k : string) :
  dict_of (zip l (map f l)) !! k = if decide (k ∈ l) then Some (f k) else None.
Proof.
  induction l as [|x l IH] using rev_ind.
  - change (zip [] (map f [])) with (@nil (string * string)).
    rewrite dict_of_nil, lookup_empty.
    case_decide as Hin; [by apply not_elem_of_nil in Hin | done].
  - rewrite map_app. simpl.
    rewrite zip_with_app by (by rewrite length_map).
    simpl. rewrite dict_of_lookup_snoc. simpl.
    destruct (decide (x = k)) as [->|Hne].
    + rewrite decide_True; [done | apply elem_of_app; right; by apply list_elem_of_singleton].
    + rewrite IH. destruct (decide (k ∈ l)) as [Hin|Hnin].
      * rewrite decide_True; [done | apply elem_of_app; by left].
      * rewrite decide_False; [done |].
        intros [?|Hs%list_elem_of_singleton]%elem_of_app; congruence.
Qed.

Lemma rename_labels_graph (f : string -> string) (l : list string) :
  rename_labels (dict_of (zip l (map f l))) l = map f l.
Proof.
  unfold rename_labels. apply map_ext_in. intros k Hk.
  rewrite dict_of_graph. rewrite decide_True; [done | by apply list_elem_of_In].
Qed.

Lemma normalize_columns_labels (df : DataFrame) :
  columns (normalize_columns df) = map slug (columns df).
Proof. unfold normalize_columns. simpl. apply rename_labels_graph. Qed.

(** In a dict written from pairs with distinct keys, a key holds exactly the
    value it was paired with. *)
Lemma dict_of_lookup_NoDup (kvs : list (string * string)) (k v : string) :
  NoDup (kvs.*1) -> dict_of kvs !! k = Some v <-> (k, v) ∈ kvs.
Proof.
  induction kvs as [|[k' v'] kvs IH] using rev_ind; intros Hnd.
  - rewrite dict_of_nil, lookup_empty. split; [done | by intros ?%not_elem_of_nil].
  - rewrite fmap_app in Hnd. apply NoDup_app in Hnd as (Hnd & Hfresh & _).
    rewrite dict_of_lookup_snoc. simpl.
    rewrite elem_of_app, list_elem_of_singleton.
    destruct (decide (k' = k)) as [->|Hne].
    + split.
      * intros [= ->]. by right.
      * intros [Hin | [= ->]]; [|done].
        exfalso. apply (Hfresh k).
        -- apply list_elem_of_fmap. by exists (k, v).
        -- simpl. by apply list_elem_of_singleton.
    + rewrite (IH Hnd). split; [by left|].
      intros [?|[= ? ?]]; [done | congruence].
Qed.


(** ** Binding of fields to header slugs *)

Lemma first_present_Some (opts cols : list string) (v : string) :
  first_present opts cols = Some v <->
  exists pre post, opts = pre ++ v :: post /\ v ∈ cols /\ forall o, o ∈ pre -> o ∉ cols.
Proof.
  unfold first_present. induction opts as [|o opts IH]; simpl.
  - split; [done|]. intros (pre & post & Heq & _). by destruct pre.
  - case_bool_decide as Ho.
    + split.
      * intros [= ->]. exists [], opts. split_and!; [done | done |].
        by intros ? ?%not_elem_of_nil.
      * intros (pre & post & Heq & Hv & Hpre). destruct pre as [|p pre].
        -- by injection Heq as -> _.
        -- injection Heq as -> _. exfalso. apply (Hpre p); [left | done].
    + rewrite IH. split.
      * intros (pre & post & -> & Hv & Hpre). exists (o :: pre), post.
        split_and!; [done | done |].
        intros o' [->|?]%elem_of_cons; [done | by apply Hpre].
      * intros (pre & post & Heq & Hv & Hpre). destruct pre as [|p pre].
        -- injection Heq as -> _. done.
        -- injection Heq as -> ->. exists pre, post. split_and!; [done | done |].
           intros o' ?. apply Hpre. by right.
Qed.

Lemma first_present_None (opts cols : list string) :
  first_present opts cols = None <-> forall o, o ∈ opts -> o ∉ cols.
Proof.
  unfold first_present. induction opts as [|o opts IH]; simpl.
  - split; [|done]. by intros _ ? ?%not_elem_of_nil.
  - case_bool_decide as Ho.
    + split; [done|]. intros H. exfalso. apply (H o); [left | done].
    + rewrite IH. split.
      * intros H o' [->|?]%elem_of_cons; [done | by apply H].
      * intros H o' ?. apply H. by right.
Qed.

Lemma first_present_elem (opts cols : list string) (v : string) :
  first_present opts cols = Some v -> v ∈ opts /\ v ∈ cols.
Proof.
  intros (pre & post & -> & Hv & _)%first_present_Some. split; [|done].
  apply elem_of_app. right. left.
Qed.

Lemma dict_get_elem (d : list (string * string)) (k v : string) :
  NoDup (d.*1) -> dict_get d k = Some v <-> (k, v) ∈ d.
Proof.
  unfold dict_get. induction d as [|[k' v'] d IH]; intros Hnd; simpl.
  - split; [done | by intros ?%not_elem_of_nil].
  - apply NoDup_cons in Hnd as [Hfresh Hnd].
    destruct (String.eqb_spec k' k) as [->|Hne]; simpl.
    + split.
      * intros [= ->]. left.
      * intros [[= ->]|Hin]%elem_of_cons; [done|].
        exfalso. apply Hfresh. apply list_elem_of_fmap. by exists (k, v).
    + rewrite (IH Hnd). split; [by right|].
      intros [[= ? ?]|?]%elem_of_cons; [congruence | done].
Qed.

Lemma elem_of_find_columns (table : list (string * list string)) (cols : list string)
    (k v : string) :
  (k, v) ∈ find_columns table cols <->
  exists opts, (k, opts) ∈ table /\ first_present opts cols = Some v.
Proof.
  unfold find_columns. rewrite list_elem_of_omap. split.
  - intros ([k' opts] & Hin & Hf). simpl in Hf.
    destruct (first_present opts cols) as [w|] eqn:Hw; [|done].
    injection Hf as -> ->. by exists opts.
  - intros (opts & Hin & Hf). exists (k, opts). split; [done|].
    simpl. by rewrite Hf.
Qed.

Lemma find_columns_key (table : list (string * list string)) (cols : list string)
    (k : string) :
  k ∈ (find_columns table cols).*1 -> k ∈ table.*1.
Proof.
  intros ([k' v] & -> & Hin)%list_elem_of_fmap.
  apply elem_of_find_columns in Hin as (opts & Hin & _).
  apply list_elem_of_fmap. by exists (k', opts).
Qed.

Lemma table_lookup_unique (table : list (string * list string)) :
  NoDup (table.*1) ->
  forall (k : string) (opts opts' : list string),
    (k, opts) ∈ table -> (k, opts') ∈ table -> opts = opts'.
Proof.
  induction table as [|[k0 o0] t IH]; intros Hnd k opts opts';
    [by intros ?%not_elem_of_nil|].
  apply NoDup_cons in Hnd as [Hfresh Hnd].
  intros [H1|H1]%elem_of_cons [H2|H2]%elem_of_cons; simplify_eq.
  - done.
  - exfalso. apply Hfresh, list_elem_of_fmap. by exists (k0, opts').
  - exfalso. apply Hfresh, list_elem_of_fmap. by exists (k0, opts).
  - by apply (IH Hnd k).
Qed.

Lemma find_columns_cons (k : string) (opts : list string)
    (table : list (string * list string)) (cols : list string) :
  find_columns ((k, opts) :: table) cols
  = match first_present opts cols with
    | Some v => (k, v) :: find_columns table cols
    | None => find_columns table cols
    end.
Proof. unfold find_columns. simpl. by destruct (first_present opts cols). Qed.

Lemma find_columns_keys_NoDup (table : list (string * list string)) (cols : list string) :
  NoDup (table.*1) -> NoDup ((find_columns table cols).*1).
Proof.
  induction table as [|[k opts] t IH]; intros Hnd; [constructor|].
  apply NoDup_cons in Hnd as [Hfresh Hnd].
  rewrite find_columns_cons. destruct (first_present opts cols); [|by apply IH].
  simpl. apply NoDup_cons. split; [|by apply IH].
  intros Hk. apply Hfresh. by apply (find_columns_key t cols).
Qed.

Lemma find_columns_value (table : list (string * list string)) (cols : list string)
    (v : string) :
  v ∈ (find_columns table cols).*2 -> v ∈ mjoin (table.*2).
Proof.
  intros ([k v'] & -> & Hin)%list_elem_of_fmap.
  apply elem_of_find_columns in Hin as (opts & Hin & Hf).
  apply list_elem_of_join. exists opts. split.
  - by apply first_present_elem in Hf as [? _].
  - apply list_elem_of_fmap. by exists (k, opts).
Qed.

Lemma find_columns_values_NoDup (table : list (string * list string)) (cols : list string) :
  NoDup (mjoin (table.*2)) -> NoDup ((find_columns table cols).*2).
Proof.
  induction table as [|[k opts] t IH]; intros Hnd; [constructor|].
  simpl in Hnd. apply NoDup_app in Hnd as (_ & Hdisj & Hnd).
  rewrite find_columns_cons.
  destruct (first_present opts cols) as [v|] eqn:Hf; [|by apply IH].
  simpl. apply NoDup_cons. split; [|by apply IH].
  intros Hv%find_columns_value.
  apply first_present_elem in Hf as [Hin _]. by apply (Hdisj v).
Qed.

Lemma dict_get_find_columns (table : list (string * list string)) (cols : list string)
    (k : string) (opts : list string) :
  NoDup (table.*1) -> (k, opts) ∈ table ->
  dict_get (find_columns table cols) k = first_present opts cols.
Proof.
  intros Hnd Hin.
  destruct (first_present opts cols) as [v|] eqn:Hf.
  - apply dict_get_elem; [by apply find_columns_keys_NoDup|].
    apply elem_of_find_columns. by exists opts.
  - destruct (dict_get (find_columns table cols) k) as [v|] eqn:Hg; [|done].
    apply dict_get_elem in Hg; [|by apply find_columns_keys_NoDup].
    apply elem_of_find_columns in Hg as (opts' & Hin' & Hf').
    rewrite (table_lookup_unique table Hnd k opts opts' Hin Hin') in Hf. congruence.
Qed.

Lemma rename_map_lookup (found : list (string * string)) (l k : string) :
  NoDup (found.*2) -> rename_map found !! l = Some k <-> (k, l) ∈ found.
Proof.
  intros Hnd. unfold rename_map.
  rewrite dict_of_lookup_NoDup.
  - rewrite list_elem_of_fmap. split.
    + intros ([k' l'] & [= -> ->] & Hin). done.
    + intros Hin. by exists (k, l).
  - replace ((map (fun kv => (kv.2, kv.1)) found).*1) with (found.*2); [done|].
    clear Hnd. induction found as [|[? ?] found IH]; csimpl; by f_equal.
Qed.

Lemma rename_map_canonical (found : list (string * string)) (l : string) :
  NoDup (found.*2) -> default l (rename_map found !! l) = canonical_of found l.
Proof.
  intros Hnd. unfold canonical_of.
  destruct (List.find (fun kv => String.eqb kv.2 l) found) as [[k l']|] eqn:Hf.
  - apply find_some in Hf as [Hin Heq]. simpl in Heq.
    apply String.eqb_eq in Heq as ->. apply list_elem_of_In in Hin.
    apply (rename_map_lookup found l k Hnd) in Hin. by rewrite Hin.
  - destruct (rename_map found !! l) as [k|] eqn:Hr; [|done].
    apply rename_map_lookup in Hr; [|done].
    apply list_elem_of_In in Hr.
    apply (find_none _ _ Hf) in Hr. simpl in Hr.
    by rewrite String.eqb_refl in Hr.
Qed.

(** The synonym table is well formed: distinct fields, options that belong
    to one field only, and each field first among its own options. *)
Lemma synonyms_keys_NoDup : NoDup (synonyms.*1).
Proof. by_evaluation. Qed.

Lemma synonyms_options_NoDup : NoDup (mjoin (synonyms.*2)).
Proof. by_evaluation. Qed.

Lemma synonyms_head (k : string) (opts : list string) :
  (k, opts) ∈ synonyms -> exists rest, opts = k :: rest.
Proof.
  unfold synonyms. intros Hin.
  repeat (apply elem_of_cons in Hin as [[= -> ->]|Hin]; [by eexists|]).
  by apply not_elem_of_nil in Hin.
Qed.

Lemma required_in_synonyms (c : string) :
  c ∈ required_columns -> exists opts, (c, opts) ∈ synonyms.
Proof.
  unfold required_columns. intros Hin.
  repeat (apply elem_of_cons in Hin as [->|Hin];
          [eexists; unfold synonyms; repeat first [by left | right]|]).
  by apply not_elem_of_nil in Hin.
Qed.

(** ** The labels after both renamings *)

Lemma rename_labels_empty (cols : list string) : rename_labels ∅ cols = cols.
Proof.
  unfold rename_labels. induction cols as [|l cols IH]; [done|].
  cbn [map]. by rewrite lookup_empty, IH.
Qed.

Lemma canonicalize_columns_labels (df : DataFrame) :
  columns (canonicalize_columns df)
  = rename_labels (rename_map (find_columns synonyms (columns df))) (columns df).
Proof.
  unfold canonicalize_columns. cbv zeta. case_bool_decide as He; [|done].
  by rewrite He, rename_labels_empty.
Qed.

Lemma canonicalize_columns_cells (df : DataFrame) :
  dtypes (canonicalize_columns df) = dtypes df /\
  rows (canonicalize_columns df) = rows df.
Proof. unfold canonicalize_columns. cbv zeta. by case_bool_decide. Qed.

Lemma final_labels_spec (df0 : DataFrame) :
  let slugs := map slug (columns df0) in
  final_labels df0 = map (canonical_of (find_columns synonyms slugs)) slugs.
Proof.
  intros slugs. unfold final_labels.
  rewrite canonicalize_columns_labels, normalize_columns_labels. fold slugs.
  unfold rename_labels. apply map_ext. intros l.
  apply rename_map_canonical, find_columns_values_NoDup, synonyms_options_NoDup.
Qed.

(** A field is a label of the renamed frame exactly when some header slug
    is one of its synonyms. *)
Lemma canonical_label_bound (df0 : DataFrame) (c : string) (opts : list string) :
  (c, opts) ∈ synonyms ->
  c ∈ final_labels df0 <-> is_Some (first_present opts (map slug (columns df0))).
Proof.
  intros Hc. rewrite final_labels_spec. cbv zeta.
  set (slugs := map slug (columns df0)).
  set (found := find_columns synonyms slugs).
  assert (Hv : NoDup (found.*2))
    by apply find_columns_values_NoDup, synonyms_options_NoDup.
  split.
  - intros (l & Hl & Hin)%list_elem_of_fmap.
    rewrite <- (rename_map_canonical found l Hv) in Hl.
    destruct (rename_map found !! l) as [k|] eqn:Hr; simpl in Hl; subst.
    + apply rename_map_lookup in Hr; [|done].
      apply elem_of_find_columns in Hr as (opts' & Hin' & Hf).
      rewrite (table_lookup_unique synonyms synonyms_keys_NoDup k opts opts' Hc Hin').
      by eexists.
    + destruct (synonyms_head l opts Hc) as [rest ->].
      unfold first_present. simpl. rewrite bool_decide_true by done. by eexists.
  - intros [v Hf].
    assert (Hin : (c, v) ∈ found) by (apply elem_of_find_columns; by exists opts).
    apply rename_map_lookup in Hin; [|done].
    apply list_elem_of_fmap. exists v. split.
    + rewrite <- (rename_map_canonical found v Hv). by rewrite Hin.
    + by apply first_present_elem in Hf as [_ ?].
Qed.

Lemma missing_columns_unbound (df0 : DataFrame) :
  missing_columns (canonicalize_columns (normalize_columns df0)) = unbound_required df0.
Proof.
  unfold missing_columns, unbound_required.
  apply filter_ext_in. intros c Hc%list_elem_of_In.
  f_equal. unfold has_column.
  destruct (required_in_synonyms c Hc) as [opts Hopts].
  apply bool_decide_ext.
  rewrite (dict_get_find_columns synonyms _ c opts synonyms_keys_NoDup Hopts).
  apply (canonical_label_bound df0 c opts Hopts).
Qed.

(** ** Positions of a label *)

Lemma positions_from_spec (n : nat) (l : string) (cols : list string) (i : nat) :
  i ∈ positions_from n l cols <-> (n <= i)%nat /\ cols !! (i - n)%nat = Some l.
Proof.
  revert n. induction cols as [|c cols IH]; intros n; simpl.
  - split; [by intros ?%not_elem_of_nil | by intros [_ ?]].
  - destruct (String.eqb_spec c l) as [->|Hne].
    + rewrite elem_of_cons, IH. split.
      * intros [->|[Hle Hi]].
        -- split; [lia|]. by replace (n - n)%nat with 0%nat by lia.
        -- split; [lia|]. replace (i - n)%nat with (S (i - S n)) by lia. done.
      * intros [Hle Hi]. destruct (decide (i = n)) as [->|Hne]; [by left|].
        right. split; [lia|].
        replace (i - n)%nat with (S (i - S n)) in Hi by lia. done.
    + rewrite IH. split.
      * intros [Hle Hi]. split; [lia|].
        replace (i - n)%nat with (S (i - S n)) by lia. done.
      * intros [Hle Hi]. destruct (decide (i = n)) as [->|Hne'].
        -- replace (n - n)%nat with 0%nat in Hi by lia. simpl in Hi. congruence.
        -- split; [lia|]. replace (i - n)%nat with (S (i - S n)) in Hi by lia. done.
Qed.

Lemma positions_spec (l : string) (cols : list string) (i : nat) :
  i ∈ positions l cols <-> cols !! i = Some l.
Proof.
  unfold positions. rewrite positions_from_spec.
  replace (i - 0)%nat with i by lia. split; [by intros [_ ?] | split; [lia | done]].
Qed.

Lemma positions_nil (l : string) (cols : list string) :
  positions l cols = [] <-> l ∉ cols.
Proof.
  split.
  - intros Hnil [i Hi]%list_elem_of_lookup.
    apply positions_spec in Hi. rewrite Hnil in Hi. by apply not_elem_of_nil in Hi.
  - intros Hl. destruct (positions l cols) as [|i ps] eqn:Hp; [done|].
    exfalso. apply Hl. apply list_elem_of_lookup. exists i.
    apply positions_spec. rewrite Hp. left.
Qed.

Lemma has_column_positions (df : DataFrame) (l : string) :
  has_column df l = false <-> positions l (columns df) = [].
Proof.
  unfold has_column. rewrite positions_nil.
  rewrite bool_decide_eq_false. done.
Qed.

(** ** [load_data] in closed form *)

Lemma coerce_coordinate_spec `{NumberSyntax} (coord : string) (df : DataFrame) :
  coerce_coordinate coord df
  = match positions coord (columns df) with
    | [] => inr df
    | [i] => inr (assign_numeric i df)
    | _ => inl (Unknown to_numeric_message)
    end.
Proof.
  unfold coerce_coordinate, getitem.
  destruct (has_column df coord) eqn:Hc.
  - destruct (positions coord (columns df)) as [|i [|i' ps]] eqn:Hp; try done.
    apply has_column_positions in Hp. congruence.
  - apply has_column_positions in Hc. by rewrite Hc.
Qed.

Lemma coerce_row_nil `{NumberSyntax} (rs : list (nat * list cell)) :
  map (coerce_row []) rs = rs.
Proof. induction rs as [|[ix cs] rs IH]; [done|]. simpl. by rewrite IH. Qed.

Lemma load_frame_spec `{NumberSyntax} (df0 : DataFrame) :
  let labels := final_labels df0 in
  load_frame df0
  = match unbound_required df0 with
    | (_ :: _) as missing => inl (MissingColumns missing labels)
    | [] =>
        if repeated "latitude" labels || repeated "longitude" labels
        then inl (Unknown to_numeric_message)
        else inr (mkFrame labels
                    (numeric_at (coordinate_positions labels) (dtypes df0))
                    (map (coerce_row (coordinate_positions labels))
                         (List.filter (row_complete labels ["name"; "state"])
                                      (rows df0))))
    end.
Proof.
  intros labels. unfold load_frame. rewrite missing_columns_unbound.
  destruct (unbound_required df0) as [|m ms]; [|done].
  set (df := dropna ["name"; "state"] (canonicalize_columns (normalize_columns df0))).
  assert (Hcols : columns df = labels) by done.
  assert (Hrows : rows df
                  = List.filter (row_complete labels ["name"; "state"]) (rows df0)).
  { subst df. cbn [rows dropna].
    by rewrite (proj2 (canonicalize_columns_cells (normalize_columns df0))). }
  assert (Hdt : dtypes df = dtypes df0).
  { subst df. cbn [dtypes dropna].
    by rewrite (proj1 (canonicalize_columns_cells (normalize_columns df0))). }
  clearbody df.
  rewrite coerce_coordinate_spec, Hcols.
  unfold repeated, coordinate_positions.
  destruct (positions "latitude" labels) as [|i [|i' ps]] eqn:Hlat;
    cbn [length Nat.ltb Nat.leb orb]; [| |done].
  - rewrite coerce_coordinate_spec, Hcols.
    destruct (positions "longitude" labels) as [|j [|j' qs]] eqn:Hlon;
      cbn [length Nat.ltb Nat.leb orb app]; [| |done].
    + rewrite coerce_row_nil, <- Hrows, <- Hcols, <- Hdt. by destruct df.
    + unfold assign_numeric. by rewrite Hcols, Hrows, Hdt.
  - rewrite coerce_coordinate_spec. cbn [assign_numeric columns]. rewrite Hcols.
    destruct (positions "longitude" labels) as [|j [|j' qs]] eqn:Hlon;
      cbn [length Nat.ltb Nat.leb orb app]; [| |done].
    + unfold assign_numeric. by rewrite Hcols, Hrows, Hdt.
    + unfold assign_numeric. cbn [columns dtypes rows].
      rewrite Hcols, Hrows, Hdt, map_map. done.
Qed.

Lemma load_data_success `{NumberSyntax} (src : read_result) (df : DataFrame) :
  load_data src = inr df ->
  exists df0, src = ReadOk df0 /\
    unbound_required df0 = [] /\
    repeated "latitude" (final_labels df0) = false /\
    repeated "longitude" (final_labels df0) = false /\
    df = mkFrame (final_labels df0)
           (numeric_at (coordinate_positions (final_labels df0)) (dtypes df0))
           (map (coerce_row (coordinate_positions (final_labels df0)))
                (List.filter (row_complete (final_labels df0) ["name"; "state"])
                             (rows df0))).
Proof.
  destruct src as [df0| | |msg]; try done. simpl.
  rewrite load_frame_spec. cbv zeta.
  destruct (unbound_required df0) eqn:Hu; [|done].
  destruct (repeated "latitude" (final_labels df0)) eqn:Hlat; [done|].
  destruct (repeated "longitude" (final_labels df0)) eqn:Hlon; [done|].
  cbn [orb]. intros [= <-]. by exists df0.
Qed.

(** ** Cells of a coerced row *)

Lemma coerce_cell_idemp `{NumberSyntax} (c : cell) :
  coerce_cell (coerce_cell c) = coerce_cell c.
Proof. destruct c as [|s|x]; simpl; [done | | done]. by destruct (parse_number s). Qed.

Lemma cell_at_alter `{NumberSyntax} (i j : nat) (ix : nat) (cs : list cell) :
  cell_at i (ix, alter coerce_cell j cs)
  = if decide (i = j) then coerce_cell (cell_at i (ix, cs)) else cell_at i (ix, cs).
Proof.
  unfold cell_at. simpl. destruct (decide (i = j)) as [->|Hne].
  - rewrite list_lookup_alter_eq. by destruct (cs !! j).
  - by rewrite list_lookup_alter_ne.
Qed.

Lemma cell_at_coerce_row `{NumberSyntax} (js : list nat) (i : nat) (r : nat * list cell) :
  cell_at i (coerce_row js r)
  = if bool_decide (i ∈ js) then coerce_cell (cell_at i r) else cell_at i r.
Proof.
  destruct r as [ix cs]. unfold coerce_row. cbn [fst snd].
  induction js as [|j js IH] using rev_ind.
  - cbn [foldl]. case_bool_decide as Hin; [by apply not_elem_of_nil in Hin | done].
  - rewrite foldl_app. cbn [foldl]. rewrite cell_at_alter, IH.
    destruct (decide (i = j)) as [->|Hne].
    + rewrite (bool_decide_true (j ∈ js ++ [j]))
        by (apply elem_of_app; right; by apply list_elem_of_singleton).
      case_bool_decide; [apply coerce_cell_idemp | done].
    + apply (f_equal (fun b : bool =>
               if b then coerce_cell (cell_at i (ix, cs)) else cell_at i (ix, cs))).
      apply bool_decide_ext. rewrite elem_of_app, list_elem_of_singleton. tauto.
Qed.

Lemma coordinate_positions_spec (labels : list string) (i : nat) :
  i ∈ coordinate_positions labels <->
  labels !! i = Some "latitude" \/ labels !! i = Some "longitude".
Proof.
  unfold coordinate_positions. by rewrite elem_of_app, !positions_spec.
Qed.

Lemma row_complete_spec (labels subset : list string) (r : nat * list cell) :
  row_complete labels subset r = true <->
  forall i l, labels !! i = Some l -> l ∈ subset -> notnull (cell_at i r) = true.
Proof.
  unfold row_complete. rewrite forallb_forall. split.
  - intros Hall i l Hi Hl. apply Hall, list_elem_of_In.
    apply list_elem_of_join. exists (positions l labels). split.
    + by apply positions_spec.
    + apply list_elem_of_In, (in_map (fun l => positions l labels)).
      by apply list_elem_of_In.
  - intros Hall i Hi%list_elem_of_In.
    apply list_elem_of_join in Hi as (ps & Hi & Hps).
    apply list_elem_of_In, in_map_iff in Hps as (l & <- & Hl).
    apply positions_spec in Hi. apply (Hall i l Hi). by apply list_elem_of_In.
Qed.

(** ** Characters *)

Ltac by_cases_on_char c :=
  destruct c as [[|] [|] [|] [|] [|] [|] [|] [|]]; reflexivity.


Lemma slug_char_idemp (c : ascii) : slug_char (slug_char c) = slug_char c.
Proof. by_cases_on_char c. Qed.

Lemma slug_char_shape (c : ascii) :
  slug_char c <> " "%char /\ is_upper (slug_char c) = false.
Proof. split; [|by_cases_on_char c]. destruct c as [[|] [|] [|] [|] [|] [|] [|] [|]]; done. Qed.

Lemma isspace_slug_char (c : ascii) : isspace c = false -> isspace (slug_char c) = false.
Proof. destruct c as [[|] [|] [|] [|] [|] [|] [|] [|]]; done. Qed.

Lemma slug_string_map (h : string) : slug h = string_map slug_char (strip h).
Proof.
  unfold slug. induction (strip h) as [|c t IH]; [done|].
  cbn [lower replace string_map]. by rewrite IH.
Qed.

(** ** Stripped strings *)


Lemma lstrip_head (s : string) :
  match lstrip s with
  | EmptyString => True
  | String c _ => isspace c = false
  end.
Proof.
  induction s as [|c s IH]; [done|]. cbn [lstrip].
  destruct (isspace c) eqn:Hc; [done|]. by rewrite Hc.
Qed.

Lemma rstrip_head (s : string) :
  match s with
  | EmptyString => True
  | String c _ => isspace c = false
  end ->
  match rstrip s with
  | EmptyString => True
  | String c _ => isspace c = false
  end.
Proof.
  destruct s as [|c s]; [done|]. intros Hc. cbn [rstrip].
  destruct (rstrip s); [by rewrite Hc | done].
Qed.

Lemma rstrip_idemp (s : string) : rstrip (rstrip s) = rstrip s.
Proof.
  induction s as [|c s IH]; [done|]. cbn [rstrip].
  destruct (rstrip s) as [|d r] eqn:Hr.
  - destruct (isspace c) eqn:Hc; [done|]. cbn [rstrip]. by rewrite Hc.
  - cbn [rstrip]. cbn [rstrip] in IH. by rewrite IH.
Qed.

Lemma lstrip_fixed (s : string) :
  match s with
  | EmptyString => True
  | String c _ => isspace c = false
  end -> lstrip s = s.
Proof. destruct s as [|c s]; [done|]. intros Hc. cbn [lstrip]. by rewrite Hc. Qed.

(** What [strip] returns is stripped. *)
Lemma strip_idemp (s : string) : strip (strip s) = strip s.
Proof.
  unfold strip.
  rewrite (lstrip_fixed (rstrip (lstrip s))) by apply rstrip_head, lstrip_head.
  apply rstrip_idemp.
Qed.

Lemma strip_fixed_head (s : string) :
  strip s = s ->
  match s with
  | EmptyString => True
  | String c _ => isspace c = false
  end.
Proof. intros <-. apply rstrip_head, lstrip_head. Qed.

Lemma strip_fixed_rstrip (s : string) : strip s = s -> rstrip s = s.
Proof. intros <-. unfold strip. apply rstrip_idemp. Qed.

Lemma strip_fixed_intro (s : string) :
  match s with
  | EmptyString => True
  | String c _ => isspace c = false
  end -> rstrip s = s -> strip s = s.
Proof. intros Hh Hr. unfold strip. by rewrite (lstrip_fixed s Hh). Qed.

(** A character map that keeps non-blank characters non-blank keeps a
    stripped string stripped. *)
Lemma rstrip_string_map (f : ascii -> ascii) (s : string) :
  (forall c, isspace c = false -> isspace (f c) = false) ->
  rstrip s = s -> rstrip (string_map f s) = string_map f s.
Proof.
  intros Hf. induction s as [|c s IH]; [done|]. cbn [rstrip string_map].
  destruct (rstrip s) as [|d r] eqn:Hr.
  - destruct (isspace c) eqn:Hc; [done|]. intros [= <-]. cbn [string_map rstrip].
    by rewrite (Hf c Hc).
  - intros [= Hs]. rewrite IH by done. rewrite <- Hs. done.
Qed.

Lemma strip_string_map (f : ascii -> ascii) (s : string) :
  (forall c, isspace c = false -> isspace (f c) = false) ->
  strip s = s -> strip (string_map f s) = string_map f s.
Proof.
  intros Hf Hs. apply strip_fixed_intro.
  - apply strip_fixed_head in Hs. destruct s as [|c s]; [done|]. by apply Hf.
  - by apply rstrip_string_map, strip_fixed_rstrip.
Qed.

Lemma string_map_compose (f : ascii -> ascii) (s : string) :
  (forall c, f (f c) = f c) -> string_map f (string_map f s) = string_map f s.
Proof. intros Hf. induction s as [|c s IH]; [done|]. cbn [string_map]. by rewrite Hf, IH. Qed.

Lemma elem_of_string_map (f : ascii -> ascii) (s : string) (c : ascii) :
  c ∈ String.list_ascii_of_string (string_map f s) ->
  exists d, c = f d /\ d ∈ String.list_ascii_of_string s.
Proof.
  induction s as [|d s IH]; cbn [string_map String.list_ascii_of_string].
  - by intros ?%not_elem_of_nil.
  - intros [->|Hin]%elem_of_cons.
    + exists d. split; [done | left].
    + destruct (IH Hin) as (e & -> & He). exists e. split; [done | by right].
Qed.

(** ** What [slug] computes *)














(** ** Header synonyms (C1) *)

Example slug_header : slug "  Popular Attractions " = "popular_attractions".
Proof. reflexivity. Qed.




(** ** Missing required columns (C2) *)

Lemma unbound_required_spec (df0 : DataFrame) (c : string) :
  c ∈ unbound_required df0 <->
  c ∈ required_columns /\
  forall opts o, (c, opts) ∈ synonyms -> o ∈ opts -> o ∉ map slug (columns df0).
Proof.
  unfold unbound_required. rewrite list_elem_of_In, filter_In, <- list_elem_of_In.
  rewrite negb_true_iff, bool_decide_eq_false.
  split; intros [Hc Hb]; (split; [done|]).
  - intros opts o Hopts.
    rewrite (dict_get_find_columns synonyms _ c opts synonyms_keys_NoDup Hopts) in Hb.
    apply first_present_None.
    destruct (first_present opts (map slug (columns df0))); [|done].
    exfalso. apply Hb. by eexists.
  - destruct (required_in_synonyms c Hc) as [opts Hopts].
    rewrite (dict_get_find_columns synonyms _ c opts synonyms_keys_NoDup Hopts).
    intros [v Hv]. apply first_present_elem in Hv as [Hin Hcol].
    by apply (Hb opts v).
Qed.

(** C2 as stated fails: with the single header [Destination] the failure
    lists the column as [name], which is not a header slug of the file. *)
Lemma C2_counterexample :
  ~ (forall (N : NumberSyntax) (df0 : DataFrame),
       unbound_required df0 <> [] ->
       load_data (ReadOk df0)
       = inl (MissingColumns (unbound_required df0) (map slug (columns df0)))).
Proof.
  intros Hclaim.
  specialize (Hclaim decimal_syntax destination_only).
  vm_compute in Hclaim. specialize (Hclaim ltac:(discriminate)). discriminate.
Qed.

(** C2, amended. When some required field is bound by no header, the load
    fails with [MissingColumns]: its first list is exactly the required fields
    none of whose synonyms is a header slug, and its second list is the
    header slugs in file order, each bound slug shown under the name of its
    field. *)
Theorem C2_missing_columns `{NumberSyntax} (df0 : DataFrame) :
  unbound_required df0 <> [] ->
  load_data (ReadOk df0)
  = inl (MissingColumns
           (unbound_required df0)
           (map (canonical_of (find_columns synonyms (map slug (columns df0))))
                (map slug (columns df0)))) /\
  forall c, c ∈ unbound_required df0 <->
    c ∈ required_columns /\
    forall opts o, (c, opts) ∈ synonyms -> o ∈ opts -> o ∉ map slug (columns df0).
Proof.
  intros Hne. split; [|apply unbound_required_spec].
  cbn [load_data]. rewrite load_frame_spec. cbv zeta.
  rewrite final_labels_spec. cbv zeta.
  destruct (unbound_required df0) as [|m ms]; [by destruct Hne | done].
Qed.

Lemma C2_witness :
  unbound_required destination_only <> [] /\
  @load_data decimal_syntax (ReadOk destination_only)
  = inl (MissingColumns ["state"; "description"; "popular_attractions"; "image_url"]
                        ["name"]).
Proof.
  assert (Hne : unbound_required destination_only <> []) by (by vm_compute).
  split; [done|].
  exact (proj1 (@C2_missing_columns decimal_syntax destination_only Hne)).
Defined.

(** ** Dropped rows (C3) *)

(** C3 as stated fails: a name of three spaces is not trimmed and its row
    is in the loaded table. *)
Lemma C3_counterexample :
  ~ (forall (N : NumberSyntax) (src : read_result) (df : DataFrame),
       load_data src = inr df ->
       forall r i l, r ∈ rows df -> columns df !! i = Some l ->
         l = "name" \/ l = "state" ->
         blank_cell (cell_at i r) = false).
Proof.
  intros Hclaim.
  destruct (@load_data decimal_syntax (ReadOk whitespace_name)) as [e|df] eqn:Hload;
    [by vm_compute in Hload|].
  specialize (Hclaim decimal_syntax _ _ Hload).
  vm_compute in Hload. injection Hload as <-.
  specialize (Hclaim (0%nat, [CStr "   "; CStr "Goa"; CStr "Beaches"; CStr "Baga"; CNull])
                     0%nat "name").
  cbn [rows columns] in Hclaim.
  specialize (Hclaim ltac:(left) eq_refl ltac:(by left)).
  by vm_compute in Hclaim.
Qed.

(** C3, amended. The rows of a loaded table are the rows of the file, in
    file order, without those that have a null cell under [name] or [state];
    a cell that holds any string, blank or not, is not null.  Index labels
    are kept, and the cells outside the coordinate columns are unchanged. *)
Theorem C3_rows_dropped `{NumberSyntax} (src : read_result) (df : DataFrame) :
  load_data src = inr df ->
  exists (df0 : DataFrame) (keep : nat * list cell -> bool)
         (g : nat * list cell -> nat * list cell),
    src = ReadOk df0 /\
    rows df = map g (List.filter keep (rows df0)) /\
    (forall r, keep r = true <->
       forall i l, columns df !! i = Some l -> l = "name" \/ l = "state" ->
         cell_at i r <> CNull) /\
    (forall r, (g r).1 = r.1 /\
       forall i, columns df !! i <> Some "latitude" ->
                 columns df !! i <> Some "longitude" ->
                 cell_at i (g r) = cell_at i r).
Proof.
  intros Hload. apply load_data_success in Hload as (df0 & -> & _ & _ & _ & ->).
  exists df0, (row_complete (final_labels df0) ["name"; "state"]),
         (coerce_row (coordinate_positions (final_labels df0))).
  cbn [rows columns]. split_and!; [done | done | |].
  - intros r. rewrite row_complete_spec. split.
    + intros Hall i l Hi Hl. specialize (Hall i l Hi).
      destruct (cell_at i r); [|done..].
      assert (l ∈ ["name"; "state"]) as Hin
        by (destruct Hl as [-> | ->]; [left | right; left]).
      by specialize (Hall Hin).
    + intros Hall i l Hi Hl.
      assert (cell_at i r <> CNull) as Hc.
      { apply (Hall i l Hi).
        apply elem_of_cons in Hl as [->|Hl]; [by left|].
        apply list_elem_of_singleton in Hl as ->. by right. }
      by destruct (cell_at i r).
  - intros r. split; [done|]. intros i Hlat Hlon.
    rewrite cell_at_coerce_row. rewrite bool_decide_false; [done|].
    intros [?|?]%coordinate_positions_spec; congruence.
Qed.

Lemma C3_witness :
  exists df, @load_data decimal_syntax (ReadOk whitespace_name) = inr df /\
    exists df0 keep g,
      ReadOk whitespace_name = ReadOk df0 /\
      rows df = map g (List.filter keep (rows df0)) /\
      map fst (rows df) = [0%nat; 2%nat].
Proof.
  destruct (@load_data decimal_syntax (ReadOk whitespace_name)) as [e|df] eqn:Hload;
    [by vm_compute in Hload|].
  exists df. split; [done|].
  destruct (@C3_rows_dropped decimal_syntax _ _ Hload) as (df0 & keep & g & Hsrc & Hrows & _).
  exists df0, keep, g. split_and!; [done | done |].
  vm_compute in Hload. by injection Hload as <-.
Defined.

(** ** Coordinate coercion (C4) *)

Lemma positions_single (l : string) (labels : list string) (i : nat) :
  repeated l labels = false -> labels !! i = Some l -> positions l labels = [i].
Proof.
  unfold repeated. intros Hrep Hi%positions_spec.
  destruct (positions l labels) as [|j [|j' ps]]; simpl in Hrep.
  - by apply not_elem_of_nil in Hi.
  - by apply list_elem_of_singleton in Hi as ->.
  - done.
Qed.

(** C4 as stated fails: with the headers [Lat] and [lat] the latitude
    field is bound and every required field is bound, yet the load does not
    succeed: [pd.to_numeric] is handed the two columns labelled [latitude]
    and raises, which the last [except] reports. *)
Lemma C4_counterexample :
  ~ (forall (N : NumberSyntax) (df0 : DataFrame) (coord : string) (i : nat),
       coord = "latitude" \/ coord = "longitude" ->
       unbound_required df0 = [] ->
       final_labels df0 !! i = Some coord ->
       exists df, load_data (ReadOk df0) = inr df).
Proof.
  intros Hclaim.
  destruct (Hclaim decimal_syntax two_latitudes "latitude" 5%nat)
    as [df Hload]; [by left | by vm_compute | by vm_compute |].
  by vm_compute in Hload.
Qed.

(** C4, amended. When the required fields are bound and no coordinate label is
    carried by two columns, the load succeeds whatever the cells hold.  The
    rows kept are those with [name] and [state] present, in file order; in a
    bound coordinate column a string cell the parser rejects becomes null,
    one it accepts becomes that number, and null and numeric cells stay. *)
Theorem C4_coordinate_coercion `{NumberSyntax} (df0 : DataFrame) (coord : string) (i : nat) :
  coord = "latitude" \/ coord = "longitude" ->
  unbound_required df0 = [] ->
  repeated "latitude" (final_labels df0) = false ->
  repeated "longitude" (final_labels df0) = false ->
  final_labels df0 !! i = Some coord ->
  exists (df : DataFrame) (g : nat * list cell -> nat * list cell),
    load_data (ReadOk df0) = inr df /\
    columns df = final_labels df0 /\
    rows df = map g (List.filter (row_complete (final_labels df0) ["name"; "state"])
                                 (rows df0)) /\
    forall r, (g r).1 = r.1 /\
      match cell_at i r with
      | CStr s =>
          match parse_number s with
          | Some x => cell_at i (g r) = CNum x
          | None => cell_at i (g r) = CNull
          end
      | c => cell_at i (g r) = c
      end.
Proof.
  intros Hcoord Hreq Hlat Hlon Hi.
  exists (mkFrame (final_labels df0)
            (numeric_at (coordinate_positions (final_labels df0)) (dtypes df0))
            (map (coerce_row (coordinate_positions (final_labels df0)))
                 (List.filter (row_complete (final_labels df0) ["name"; "state"])
                              (rows df0)))),
         (coerce_row (coordinate_positions (final_labels df0))).
  split_and!; [|done|done|].
  - cbn [load_data]. rewrite load_frame_spec. cbv zeta.
    by rewrite Hreq, Hlat, Hlon.
  - intros r. split; [done|].
    rewrite cell_at_coerce_row. rewrite bool_decide_true.
    + destruct (cell_at i r) as [|s|x]; simpl; [done| |done].
      by destruct (parse_number s).
    + apply coordinate_positions_spec. destruct Hcoord as [-> | ->]; [by left | by right].
Qed.

Lemma C4_witness :
  unbound_required scenario_D = [] /\
  final_labels scenario_D !! 5%nat = Some "latitude" /\
  @parse_number decimal_syntax "abc" = None /\
  exists df,
    @load_data decimal_syntax (ReadOk scenario_D) = inr df /\
    map (cell_at 5) (rows df) = [CNull; CNum 26.9855%Q].
Proof.
  split_and!; [by vm_compute .. |].
  destruct (@C4_coordinate_coercion decimal_syntax scenario_D "latitude" 5)
    as (df & g & Hload & _ & Hrows & Hcells); [by left | by vm_compute .. |].
  exists df. split; [done|].
  rewrite Hrows.
  set (r0 := (0%nat, [CStr "Taj Mahal"; CStr "Uttar Pradesh"; CStr "Mausoleum";
                       CStr "Sunrise view"; CNull; CStr "abc"])).
  set (r1 := (1%nat, [CStr "Amber Fort"; CStr "Rajasthan"; CStr "Hill fort";
                       CNull; CNull; CStr "26.9855"])).
  assert (Hc0 : cell_at 5 (g r0) = CNull) by exact (proj2 (Hcells r0)).
  assert (Hc1 : cell_at 5 (g r1) = CNum 26.9855%Q) by exact (proj2 (Hcells r1)).
  change (List.filter _ (rows scenario_D)) with [r0; r1].
  cbn [map]. by rewrite Hc0, Hc1.
Defined.

(** ** Columns of a loaded table (C7) *)

(** C7 as stated fails: a header the program does not know stays in the
    loaded table, under its slug. *)
Lemma C7_counterexample :
  ~ (forall (N : NumberSyntax) (src : read_result) (df : DataFrame),
       load_data src = inr df ->
       forall l, l ∈ columns df <-> l ∈ canonical_schema).
Proof.
  intros Hclaim.
  destruct (@load_data decimal_syntax (ReadOk extra_header)) as [e|df] eqn:Hload;
    [by vm_compute in Hload|].
  specialize (Hclaim decimal_syntax _ _ Hload "notes").
  vm_compute in Hload. injection Hload as <-. cbn [columns] in Hclaim.
  assert (Hin : "notes" ∈ canonical_schema).
  { apply Hclaim. by_evaluation. }
  revert Hin. by_evaluation.
Qed.

(** C7, amended. The columns of a loaded table are the columns of the
    file, in file order and none dropped: each carries its header slug, or
    the name of the field that slug is bound to.  The five required fields
    are among the labels; [latitude] and [longitude] are among them exactly
    when one of their synonyms is a header slug. *)
Theorem C7_columns `{NumberSyntax} (src : read_result) (df : DataFrame) :
  load_data src = inr df ->
  exists df0 : DataFrame,
    src = ReadOk df0 /\
    columns df = map (canonical_of (find_columns synonyms (map slug (columns df0))))
                     (map slug (columns df0)) /\
    (forall c, c ∈ required_columns -> c ∈ columns df) /\
    (forall c opts, (c, opts) ∈ synonyms ->
       c ∈ columns df <-> exists o, o ∈ opts /\ o ∈ map slug (columns df0)) /\
    (forall l, l ∈ map slug (columns df0) ->
       (forall c opts, (c, opts) ∈ synonyms -> l ∉ opts) -> l ∈ columns df).
Proof.
  intros Hload. apply load_data_success in Hload as (df0 & -> & Hreq & _ & _ & ->).
  exists df0. cbn [columns]. split_and!; [done | apply final_labels_spec | | |].
  - intros c Hc. destruct (required_in_synonyms c Hc) as [opts Hopts].
    apply (canonical_label_bound df0 c opts Hopts).
    destruct (first_present opts (map slug (columns df0))) as [v|] eqn:Hf; [by eexists|].
    exfalso. assert (Hin : c ∈ unbound_required df0).
    { apply unbound_required_spec. split; [done|]. intros opts' o Hopts'.
      rewrite <- (table_lookup_unique synonyms synonyms_keys_NoDup _ _ _ Hopts Hopts').
      revert o. by apply first_present_None. }
    rewrite Hreq in Hin. by apply not_elem_of_nil in Hin.
  - intros c opts Hopts. rewrite (canonical_label_bound df0 c opts Hopts). split.
    + intros [v Hv]. exists v. by apply first_present_elem.
    + intros (o & Ho & Hs).
      destruct (first_present opts (map slug (columns df0))) as [v|] eqn:Hf; [by eexists|].
      exfalso. by apply (proj1 (first_present_None _ _) Hf o).
  - intros l Hl Hfree. rewrite final_labels_spec. cbv zeta.
    apply list_elem_of_fmap. exists l. split; [|done].
    unfold canonical_of.
    destruct (List.find _ _) as [[k l']|] eqn:Hf; [|done].
    apply find_some in Hf as [Hin Heq]. cbn [snd] in Heq.
    apply String.eqb_eq in Heq as ->. apply list_elem_of_In in Hin.
    apply elem_of_find_columns in Hin as (opts & Hopts & Hv).
    exfalso. apply (Hfree k opts Hopts). by apply first_present_elem in Hv as [? _].
Qed.

Lemma C7_witness :
  exists df,
    @load_data decimal_syntax (ReadOk extra_header) = inr df /\
    (forall c, c ∈ required_columns -> c ∈ columns df) /\
    columns df = ["name"; "state"; "description"; "popular_attractions"; "image_url";
                  "notes"].
Proof.
  destruct (@load_data decimal_syntax (ReadOk extra_header)) as [e|df] eqn:Hload;
    [by vm_compute in Hload|].
  exists df. split; [done|].
  destruct (@C7_columns decimal_syntax _ _ Hload) as (df0 & _ & _ & Hreq & _).
  split; [done|].
  vm_compute in Hload. by injection Hload as <-.
Defined.

(** ** Coordinates of a record (C8) *)

(** C8 as stated fails: the file row with a latitude and an empty longitude
    is loaded with a numeric latitude and a null longitude. *)
Lemma C8_counterexample :
  ~ (forall (N : NumberSyntax) (src : read_result) (df : DataFrame),
       load_data src = inr df ->
       forall r i j, r ∈ rows df ->
         columns df !! i = Some "latitude" ->
         columns df !! j = Some "longitude" ->
         is_number (cell_at i r) = is_number (cell_at j r)).
Proof.
  intros Hclaim.
  destruct (@load_data decimal_syntax (ReadOk latitude_only)) as [e|df] eqn:Hload;
    [by vm_compute in Hload|].
  specialize (Hclaim decimal_syntax _ _ Hload).
  vm_compute in Hload. injection Hload as <-. cbn [rows columns] in Hclaim.
  specialize (Hclaim _ 5%nat 6%nat ltac:(left) eq_refl eq_refl).
  by vm_compute in Hclaim.
Qed.

Lemma coerce_cell_number `{NumberSyntax} (c : cell) :
  notnull (coerce_cell c) = is_number (coerce_cell c).
Proof. destruct c as [|s|x]; simpl; [done| |done]. by destruct (parse_number s). Qed.

Lemma markers_of_spec (df : DataFrame) (i j : nat) (rs : list (nat * list cell)) :
  positions "latitude" (columns df) = [i] ->
  positions "longitude" (columns df) = [j] ->
  (forall r, r ∈ rs -> notnull (cell_at i r) = is_number (cell_at i r) /\
                       notnull (cell_at j r) = is_number (cell_at j r)) ->
  markers_of df rs
  = Returned (omap (fun r => if is_number (cell_at i r) && is_number (cell_at j r)
                             then Some (r.1, cell_at i r, cell_at j r) else None) rs).
Proof.
  intros Hi Hj. induction rs as [|r rs IH]; intros Hnum; [done|].
  cbn [markers_of]. unfold row_get. rewrite Hi, Hj. cbn [bind].
  destruct (Hnum r ltac:(left)) as [-> ->].
  rewrite IH by (intros r' ?; apply Hnum; by right).
  cbn [omap list_omap].
  destruct (is_number (cell_at i r)); cbn [andb bind]; [|done].
  by destruct (is_number (cell_at j r)).
Qed.

(** C8, amended. In a loaded table every cell of a bound coordinate
    column is a number or null, each column on its own: a record may hold
    one coordinate without the other and stays in the table.  The map gets a
    marker for exactly the records, of the table or of a selection of its
    rows, that hold both. *)
Theorem C8_coordinates `{NumberSyntax} (src : read_result) (df : DataFrame) :
  load_data src = inr df ->
  (forall r i coord, r ∈ rows df ->
     coord = "latitude" \/ coord = "longitude" ->
     columns df !! i = Some coord ->
     cell_at i r = CNull \/ exists x, cell_at i r = CNum x) /\
  (forall (filtered_df : DataFrame) (i j : nat),
     columns filtered_df = columns df ->
     (forall r, r ∈ rows filtered_df -> r ∈ rows df) ->
     columns df !! i = Some "latitude" ->
     columns df !! j = Some "longitude" ->
     map_markers df filtered_df
     = Returned (omap (fun r => if is_number (cell_at i r) && is_number (cell_at j r)
                                then Some (r.1, cell_at i r, cell_at j r) else None)
                      (rows filtered_df))).
Proof.
  intros Hload. apply load_data_success in Hload as (df0 & -> & _ & Hlat & Hlon & ->).
  cbn [rows columns].
  set (labels := final_labels df0) in *.
  assert (Hcell : forall r i coord,
            r ∈ map (coerce_row (coordinate_positions labels))
                    (List.filter (row_complete labels ["name"; "state"]) (rows df0)) ->
            coord = "latitude" \/ coord = "longitude" ->
            labels !! i = Some coord ->
            exists c, cell_at i r = coerce_cell c).
  { intros r i coord Hr Hcoord Hi.
    apply list_elem_of_In, in_map_iff in Hr as (r0 & <- & _).
    exists (cell_at i r0). rewrite cell_at_coerce_row, bool_decide_true; [done|].
    apply coordinate_positions_spec. destruct Hcoord as [-> | ->]; [by left | by right]. }
  split.
  - intros r i coord Hr Hcoord Hi.
    destruct (Hcell r i coord Hr Hcoord Hi) as [c ->].
    destruct c as [|s|x]; simpl; [by left | | right; by eexists].
    destruct (parse_number s); [right; by eexists | by left].
  - intros filtered i j Hcols Hsub Hi Hj.
    unfold map_markers, has_column. cbn [columns].
    rewrite !bool_decide_true by (apply list_elem_of_lookup; by eexists).
    cbn [andb]. apply markers_of_spec.
    + rewrite Hcols. cbn [columns]. by apply positions_single.
    + rewrite Hcols. cbn [columns]. by apply positions_single.
    + intros r Hr%Hsub. split.
      * destruct (Hcell r i "latitude" Hr ltac:(by left) Hi) as [c ->].
        apply coerce_cell_number.
      * destruct (Hcell r j "longitude" Hr ltac:(by right) Hj) as [c ->].
        apply coerce_cell_number.
Qed.

Lemma C8_witness :
  exists df,
    @load_data decimal_syntax (ReadOk latitude_only) = inr df /\
    @map_markers df df = Returned [] /\
    @load_data decimal_syntax (ReadOk scenario_A) = inr scenario_A_loaded /\
    map_markers scenario_A_loaded scenario_A_loaded
    = Returned [(0%nat, CNum 27.1751%Q, CNum 78.0421%Q)].
Proof.
  destruct (@load_data decimal_syntax (ReadOk latitude_only)) as [e|df] eqn:Hload;
    [by vm_compute in Hload|].
  exists df. split; [done|].
  pose proof (proj2 (@C8_coordinates decimal_syntax _ _ Hload) df 5%nat 6%nat eq_refl
                (fun r Hr => Hr)) as Hm.
  pose proof (proj2 (@C8_coordinates decimal_syntax (ReadOk scenario_A) scenario_A_loaded
                       ltac:(by vm_compute))
                scenario_A_loaded 5%nat 6%nat eq_refl (fun r Hr => Hr) eq_refl eq_refl) as Hm'.
  vm_compute in Hload. injection Hload as <-.
  split; [exact (Hm eq_refl eq_refl)|]. split; [by vm_compute | exact Hm'].
Defined.

(** ** The filters *)

Lemma select_rows_map {A : Type} (p : A -> bool) (l : list A) :
  map fst (List.filter snd (zip l (map p l))) = List.filter p l.
Proof.
  induction l as [|x l IH]; [done|].
  cbn [map zip zip_with List.filter snd]. destruct (p x); cbn [map fst]; by rewrite IH.
Qed.

Lemma boolean_index_map (df : DataFrame) (p : nat * list cell -> bool) :
  boolean_index df (map p (rows df))
  = mkFrame (columns df) (dtypes df) (List.filter p (rows df)).
Proof. unfold boolean_index. by rewrite select_rows_map. Qed.

Lemma mask_or_map {A : Type} (f g : A -> bool) (l : list A) :
  mask_or (map f l) (map g l) = map (fun x => f x || g x) l.
Proof. unfold mask_or. induction l as [|x l IH]; [done|]. simpl. by rewrite IH. Qed.


Lemma getitem_Column (df : DataFrame) (l : string) (i : nat) (s : Series) :
  getitem df l = Column i s <->
  positions l (columns df) = [i] /\
  s = (default DObject (dtypes df !! i), map (cell_at i) (rows df)).
Proof.
  unfold getitem. destruct (positions l (columns df)) as [|k [|k' ps]].
  - split; [done | by intros [? _]].
  - split; [by intros [= -> <-] | by intros [[= ->] ->]].
  - split; [done | by intros [? _]].
Qed.

Lemma str_contains_Returned `{RegexEngine} (df : DataFrame) (l pat : string)
    (m : list bool) :
  str_contains (getitem df l) l pat = Returned m <->
  exists i search,
    text_column df l i /\ re_compile_icase pat = Some search /\
    m = map (fun r => text_hit search (cell_at i r)) (rows df).
Proof.
  unfold str_contains, text_column. split.
  - destruct (getitem df l) as [|i [dt cells]|] eqn:Hg; [done| |done].
    apply getitem_Column in Hg as [Hp [= -> ->]].
    destruct (default DObject (dtypes df !! i)) eqn:Hdt; [|done].
    destruct (re_compile_icase pat) as [search|] eqn:Hc; [|done].
    intros [= <-]. exists i, search. by rewrite map_map.
  - intros (i & search & [Hp Hdt] & Hc & ->).
    rewrite (proj2 (getitem_Column df l i _) (conj Hp eq_refl)).
    by rewrite Hdt, Hc, map_map.
Qed.

(** The search step on a non-empty query, in closed form. *)
Lemma search_step_Returned `{RegexEngine} (df : DataFrame) (q : string) (A : DataFrame) :
  q <> "" ->
  search_step df q = Returned A <->
  exists search i1 i2 i3,
    re_compile_icase q = Some search /\
    text_column df "name" i1 /\
    text_column df "description" i2 /\
    text_column df "popular_attractions" i3 /\
    A = mkFrame (columns df) (dtypes df) (List.filter (row_hit search i1 i2 i3) (rows df)).
Proof.
  intros Hq. unfold search_step.
  destruct (String.eqb_spec q "") as [->|_]; [done|].
  split.
  - destruct (str_contains (getitem df "name") "name" q) as [m1|] eqn:H1; [|done].
    destruct (str_contains (getitem df "description") "description" q)
      as [m2|] eqn:H2; [|done].
    destruct (str_contains (getitem df "popular_attractions") "popular_attractions" q)
      as [m3|] eqn:H3; [|done].
    cbn [bind]. intros [= <-].
    apply str_contains_Returned in H1 as (i1 & s1 & Ht1 & Hc1 & ->).
    apply str_contains_Returned in H2 as (i2 & s2 & Ht2 & Hc2 & ->).
    apply str_contains_Returned in H3 as (i3 & s3 & Ht3 & Hc3 & ->).
    assert (s2 = s1) as -> by congruence. assert (s3 = s1) as -> by congruence.
    exists s1, i1, i2, i3. split_and!; try done.
    by rewrite !mask_or_map, boolean_index_map.
  - intros (search & i1 & i2 & i3 & Hc & Ht1 & Ht2 & Ht3 & ->).
    rewrite (proj2 (str_contains_Returned df "name" q _)) by (by exists i1, search).
    rewrite (proj2 (str_contains_Returned df "description" q _)) by (by exists i2, search).
    rewrite (proj2 (str_contains_Returned df "popular_attractions" q _))
      by (by exists i3, search).
    cbn [bind]. by rewrite !mask_or_map, boolean_index_map.
Qed.

(** The state step on a selection other than [All], in closed form. *)
Lemma state_step_Returned (df : DataFrame) (value : string) (B : DataFrame) :
  value <> "All" ->
  state_step df value = Returned B <->
  exists j, positions "state" (columns df) = [j] /\
    B = mkFrame (columns df) (dtypes df) (List.filter (row_in_state value j) (rows df)).
Proof.
  intros Hv. unfold state_step, eq_scalar.
  destruct (String.eqb_spec value "All") as [->|_]; [done|].
  destruct (getitem df "state") as [|j [dt cells]|] eqn:Hg.
  - split; [done|]. intros (j & Hp & _). unfold getitem in Hg. by rewrite Hp in Hg.
  - apply getitem_Column in Hg as [Hp [= -> ->]]. cbn [bind].
    rewrite map_map, boolean_index_map. split.
    + intros [= <-]. by exists j.
    + intros (j' & Hp' & ->). by assert (j' = j) as -> by congruence.
  - split; [done|]. intros (j & Hp & _). unfold getitem in Hg. by rewrite Hp in Hg.
Qed.

Lemma filter_true {A : Type} (l : list A) : List.filter (fun _ => true) l = l.
Proof. induction l as [|x l IH]; [done|]. simpl. by rewrite IH. Qed.

Lemma filter_twice {A : Type} (p q : A -> bool) (l : list A) :
  List.filter q (List.filter p l) = List.filter (fun x => p x && q x) l.
Proof.
  induction l as [|x l IH]; [done|]. simpl.
  destruct (p x); simpl; [|done]. destruct (q x); by rewrite IH.
Qed.

Lemma filter_sublist {A : Type} (p : A -> bool) (l : list A) :
  List.filter p l `sublist_of` l.
Proof.
  induction l as [|x l IH]; [constructor|]. simpl.
  destruct (p x); by constructor.
Qed.

Lemma elem_of_filter {A : Type} (p : A -> bool) (l : list A) (x : A) :
  x ∈ List.filter p l <-> x ∈ l /\ p x = true.
Proof. by rewrite !list_elem_of_In, filter_In. Qed.

Lemma frame_eta (df : DataFrame) : mkFrame (columns df) (dtypes df) (rows df) = df.
Proof. by destruct df. Qed.

(** The row test of the search step: the constant [true] for the empty
    query. *)
Lemma search_step_rows `{RegexEngine} (df : DataFrame) (q : string) (A : DataFrame) :
  search_step df q = Returned A ->
  exists keep : list cell -> bool,
    A = mkFrame (columns df) (dtypes df) (List.filter (fun r => keep r.2) (rows df)).
Proof.
  destruct (decide (q = "")) as [->|Hq].
  - intros [= <-]. exists (fun _ => true). by rewrite filter_true, frame_eta.
  - intros (search & i1 & i2 & i3 & _ & _ & _ & _ & ->)%search_step_Returned; [|done].
    by exists (fun cs => row_hit search i1 i2 i3 (0%nat, cs)).
Qed.

Lemma state_step_rows (df : DataFrame) (value : string) (B : DataFrame) :
  state_step df value = Returned B ->
  exists keep : list cell -> bool,
    B = mkFrame (columns df) (dtypes df) (List.filter (fun r => keep r.2) (rows df)).
Proof.
  destruct (decide (value = "All")) as [->|Hv].
  - intros [= <-]. exists (fun _ => true). by rewrite filter_true, frame_eta.
  - intros (j & _ & ->)%state_step_Returned; [|done].
    by exists (fun cs => row_in_state value j (0%nat, cs)).
Qed.

(** With one [state] column the state step returns, on any frame that has
    the labels of [df]. *)
Lemma state_step_total (df : DataFrame) (value : string) :
  single_label "state" (columns df) ->
  exists keep : list cell -> bool, forall df',
    columns df' = columns df ->
    state_step df' value
    = Returned (mkFrame (columns df') (dtypes df')
                        (List.filter (fun r => keep r.2) (rows df'))).
Proof.
  intros [j Hj]. destruct (decide (value = "All")) as [->|Hv].
  - exists (fun _ => true). intros df' _. by rewrite filter_true, frame_eta.
  - exists (fun cs => row_in_state value j (0%nat, cs)). intros df' Hcols.
    apply state_step_Returned; [done|]. exists j. by rewrite Hcols.
Qed.

(** ** Composition of the two filters (C5) *)

(** C5. On a table with one [state] column, filtering by state alone
    returns; if filtering by text alone raises, so does filtering by both,
    with the same error; otherwise the rows selected by both filters are
    exactly the rows selected by each, in the order of the text selection. *)
Theorem C5_filter_composition `{RegexEngine} (T : DataFrame) (Q R : string) :
  single_label "state" (columns T) ->
  exists B : DataFrame,
    apply_filters T "" R = Returned B /\
    match apply_filters T Q "All" with
    | Raised e => apply_filters T Q R = Raised e
    | Returned A =>
        exists C : DataFrame,
          apply_filters T Q R = Returned C /\
          columns C = columns T /\
          (forall r, r ∈ rows C <-> r ∈ rows A /\ r ∈ rows B) /\
          rows C = List.filter (fun r => bool_decide (r ∈ rows B)) (rows A)
    end.
Proof.
  intros Hstate. destruct (state_step_total T R Hstate) as [keep Hkeep].
  unfold apply_filters. cbn [search_step String.eqb bind].
  rewrite (Hkeep T eq_refl). eexists. split; [done|]. cbn [rows].
  destruct (search_step T Q) as [A|e] eqn:HA; cbn [bind]; [|done].
  change (state_step A "All") with (Returned A).
  destruct (search_step_rows T Q A HA) as [keepQ ->].
  rewrite Hkeep by done. eexists. split; [done|]. cbn [rows columns].
  split; [done|]. split.
  - intros r. rewrite !elem_of_filter. tauto.
  - apply filter_ext_in. intros r Hr%list_elem_of_In%elem_of_filter.
    destruct (keep r.2) eqn:Hk.
    + symmetry. apply bool_decide_eq_true. apply elem_of_filter. tauto.
    + symmetry. apply bool_decide_eq_false. rewrite elem_of_filter. intros [_ ?]. congruence.
Qed.

Lemma C5_witness :
  single_label "state" (columns scenario_C) /\
  exists B : DataFrame,
    @apply_filters dotted_engine scenario_C "" "Uttar Pradesh" = Returned B /\
    match @apply_filters dotted_engine scenario_C "taj" "All" with
    | Raised e => @apply_filters dotted_engine scenario_C "taj" "Uttar Pradesh" = Raised e
    | Returned A =>
        exists C : DataFrame,
          @apply_filters dotted_engine scenario_C "taj" "Uttar Pradesh" = Returned C /\
          columns C = columns scenario_C /\
          (forall r, r ∈ rows C <-> r ∈ rows A /\ r ∈ rows B) /\
          rows C = List.filter (fun r => bool_decide (r ∈ rows B)) (rows A)
    end.
Proof.
  assert (Hs : single_label "state" (columns scenario_C)) by (by exists 1%nat).
  split; [done|].
  exact (@C5_filter_composition dotted_engine scenario_C "taj" "Uttar Pradesh" Hs).
Defined.

(** ** Order of the filtered rows (C9) *)

(** C9. On a table where [state] names one column (or with the selection
    [All]): when the filters return, the result has the columns of the table
    and its rows are the table's rows that pass a test on the cells alone, in
    table order: a subsequence, with equal records kept or left out
    together.  The filters do return when the query is empty, or compiles and
    the three text labels each name one object column. *)
Theorem C9_order_preserved `{RegexEngine} (T : DataFrame) (Q R : string) :
  R = "All" \/ single_label "state" (columns T) ->
  (forall T', apply_filters T Q R = Returned T' ->
     columns T' = columns T /\
     rows T' `sublist_of` rows T /\
     exists keep : list cell -> bool,
       rows T' = List.filter (fun r => keep r.2) (rows T)) /\
  ((Q = "" \/
    (is_Some (re_compile_icase Q) /\
     exists i1 i2 i3, text_column T "name" i1 /\ text_column T "description" i2 /\
                      text_column T "popular_attractions" i3)) ->
   exists T', apply_filters T Q R = Returned T').
Proof.
  intros HR. unfold apply_filters. split.
  - intros T'. destruct (search_step T Q) as [A|e] eqn:HA; cbn [bind]; [|done].
    intros HB. destruct (search_step_rows T Q A HA) as [keepQ ->].
    destruct (state_step_rows _ R T' HB) as [keepR ->]. cbn [rows columns].
    rewrite filter_twice. split_and!; [done | apply filter_sublist |].
    by exists (fun cs => keepQ cs && keepR cs).
  - intros HQ.
    assert (exists A, search_step T Q = Returned A) as [A HA].
    { destruct HQ as [->|([search Hc] & i1 & i2 & i3 & H1 & H2 & H3)]; [by eexists|].
      destruct (decide (Q = "")) as [->|Hq]; [by eexists|].
      eexists. apply search_step_Returned; [done|]. by exists search, i1, i2, i3. }
    rewrite HA. cbn [bind].
    destruct HR as [->|Hs]; [by eexists|].
    destruct (search_step_rows T Q A HA) as [keepQ ->].
    destruct (state_step_total T R Hs) as [keep Hkeep].
    rewrite Hkeep by done. by eexists.
Qed.

Lemma C9_witness :
  single_label "state" (columns scenario_C) /\
  exists T',
    @apply_filters dotted_engine scenario_C "taj" "Uttar Pradesh" = Returned T' /\
    columns T' = columns scenario_C /\
    rows T' `sublist_of` rows scenario_C.
Proof.
  assert (Hs : single_label "state" (columns scenario_C)) by (by exists 1%nat).
  split; [done|].
  destruct (@C9_order_preserved dotted_engine scenario_C "taj" "Uttar Pradesh"
              (or_intror Hs)) as [Hsub Hret].
  destruct Hret as [T' HT'].
  - right. split; [by eexists|]. exists 0%nat, 2%nat, 3%nat. by split_and!.
  - exists T'. split; [done|]. by destruct (Hsub T' HT') as (? & ? & _).
Defined.

(** ** No filter (C10) *)

(** C10. With the empty query and the selection [All] the filters return
    the table itself. *)
Theorem C10_no_filter `{RegexEngine} (T : DataFrame) :
  apply_filters T "" "All" = Returned T.
Proof. reflexivity. Qed.

(** ** The search box (C6) *)

Lemma plain_not_dot (p : ascii) : is_meta p = false -> Ascii.eqb p "." = false.
Proof.
  unfold is_meta, metachars. cbn [String.list_ascii_of_string existsb].
  by intros [? _]%orb_false_iff.
Qed.

Lemma plain_pattern_cons (p : ascii) (q : string) :
  plain_pattern (String p q) = true ->
  is_meta p = false /\ plain_pattern q = true.
Proof.
  unfold plain_pattern. cbn [String.list_ascii_of_string forallb].
  intros [[_ Hm%negb_true_iff]%andb_true_iff Hq]%andb_true_iff. done.
Qed.

Lemma plain_is_dotted (q : string) : plain_pattern q = true -> dotted_pattern q = true.
Proof.
  unfold plain_pattern, dotted_pattern.
  induction (String.list_ascii_of_string q) as [|p l IH]; [done|].
  cbn [forallb]. intros [[Ha Hm]%andb_true_iff Hl]%andb_true_iff.
  rewrite Ha, Hm, orb_true_r. simpl. by apply IH.
Qed.

Lemma match_here_prefix (q s : string) :
  plain_pattern q = true -> match_here q s = String.prefix (lower q) (lower s).
Proof.
  revert s. induction q as [|p q IH]; intros s Hq.
  - by destruct s.
  - destruct s as [|c s]; [done|].
    apply plain_pattern_cons in Hq as [Hm Hq].
    cbn [match_here lower String.prefix]. unfold char_match.
    rewrite (plain_not_dot p Hm), (IH s Hq).
    destruct (ascii_dec (lower_char p) (lower_char c)) as [->|Hne].
    + by rewrite Ascii.eqb_refl.
    + apply Ascii.eqb_neq in Hne. by rewrite Hne.
Qed.

(** On a plain pattern the search is the case-insensitive substring test. *)
Lemma plain_search_substring (q s : string) :
  plain_pattern q = true -> dotted_search q s = icase_substring q s.
Proof.
  intros Hq. unfold icase_substring.
  induction s as [|c s IH].
  - cbn [dotted_search lower is_substring]. by rewrite (match_here_prefix q "" Hq).
  - cbn [dotted_search lower is_substring].
    by rewrite (match_here_prefix q (String c s) Hq), IH.
Qed.

(** For a query of ordinary ASCII characters, on ASCII text, the search box
    selects the records that hold the query as a case-insensitive substring
    of one of the three fields. *)
Lemma plain_query_is_substring `{E : RegexEngine} (T : DataFrame) (q : string)
    (i1 i2 i3 : nat) :
  engine_lawful E ->
  q <> "" -> plain_pattern q = true ->
  text_column T "name" i1 -> text_column T "description" i2 ->
  text_column T "popular_attractions" i3 ->
  (forall r i s, r ∈ rows T -> cell_at i r = CStr s -> is_ascii s = true) ->
  apply_filters T q "All"
  = Returned (mkFrame (columns T) (dtypes T)
       (List.filter (fun r => cell_has q (cell_at i1 r) || cell_has q (cell_at i2 r)
                              || cell_has q (cell_at i3 r)) (rows T))).
Proof.
  intros [Hlaw _] Hq Hplain H1 H2 H3 Hascii.
  destruct (Hlaw q (plain_is_dotted q Hplain)) as (search & Hc & Hs).
  unfold apply_filters.
  rewrite (proj2 (search_step_Returned T q _ Hq))
    by (exists search, i1, i2, i3; split_and!; done).
  cbn [bind]. change (state_step ?A "All") with (Returned A). do 2 f_equal.
  apply filter_ext_in. intros r Hr%list_elem_of_In.
  assert (Hhit : forall i, text_hit search (cell_at i r) = cell_has q (cell_at i r)).
  { intros i. destruct (cell_at i r) as [|s|x] eqn:Hcell; [done| |done].
    cbn [text_hit cell_has].
    by rewrite (Hs s (Hascii r i s Hr Hcell)), plain_search_substring. }
  unfold row_hit. by rewrite !Hhit.
Qed.

Lemma filter_all {A : Type} (p : A -> bool) (l : list A) :
  (forall x, x ∈ l -> p x = true) -> List.filter p l = l.
Proof.
  induction l as [|x l IH]; intros Hall; [done|]. simpl.
  rewrite (Hall x) by left. f_equal. apply IH. intros y ?. apply Hall. by right.
Qed.

(** C6, at two queries.  The query is compiled as a pattern: a single dot
    selects both records of scenario C although no field of either holds a
    dot, and a single opening parenthesis makes the filter raise. *)
Theorem C6_query_is_a_pattern `{E : RegexEngine} :
  engine_lawful E ->
  apply_filters scenario_C "." "All" = Returned scenario_C /\
  (forall r i, r ∈ rows scenario_C -> cell_has "." (cell_at i r) = false) /\
  apply_filters scenario_C "(" "All" = Raised (ReError "(").
Proof.
  intros [Hlaw Hparen].
  destruct (Hlaw "." eq_refl) as (search & Hc & Hs).
  split_and!.
  - unfold apply_filters.
    rewrite (proj2 (search_step_Returned scenario_C "." scenario_C ltac:(done))); [done|].
    exists search, 0%nat, 2%nat, 3%nat. split_and!; [done | done | done | done |].
    rewrite filter_all; [done|].
    intros r Hr. unfold row_hit.
    apply elem_of_cons in Hr as [->|Hr]; [|apply list_elem_of_singleton in Hr as ->].
    + change (cell_at 0 _) with (CStr "Taj Mahal"). cbn [text_hit].
      by rewrite (Hs "Taj Mahal" eq_refl).
    + change (cell_at 0 _) with (CStr "Amber Fort"). cbn [text_hit].
      by rewrite (Hs "Amber Fort" eq_refl).
  - intros r i Hr.
    apply elem_of_cons in Hr as [->|Hr]; [|apply list_elem_of_singleton in Hr as ->].
    + do 6 (destruct i as [|i]; [by vm_compute|]). by vm_compute.
    + do 6 (destruct i as [|i]; [by vm_compute|]). by vm_compute.
  - unfold apply_filters, search_step, str_contains.
    change (String.eqb "(" "") with false.
    change (getitem scenario_C "name")
      with (Column 0 (DObject, map (cell_at 0) (rows scenario_C))).
    cbv iota. by rewrite Hparen.
Qed.

Lemma dotted_engine_lawful : engine_lawful dotted_engine.
Proof.
  split; [|done]. intros pat Hpat. exists (dotted_search pat).
  unfold re_compile_icase, dotted_engine. by rewrite Hpat.
Qed.

Lemma C6_witness :
  engine_lawful dotted_engine /\
  @apply_filters dotted_engine scenario_C "." "All" = Returned scenario_C /\
  @apply_filters dotted_engine scenario_C "(" "All" = Raised (ReError "(").
Proof.
  split; [apply dotted_engine_lawful|].
  destruct (@C6_query_is_a_pattern dotted_engine dotted_engine_lawful) as (H1 & _ & H3).
  by split.
Defined.

(** A text column that is empty in every row of the file is delivered as a
    numeric column of nulls; any non-empty query then raises, whatever the
    query is. *)
Lemma empty_column_search_raises `{RegexEngine} (q : string) :
  q <> "" ->
  apply_filters
    (mkFrame ["name"; "state"; "description"; "popular_attractions"; "image_url"]
             [DObject; DObject; DNumeric; DObject; DNumeric]
             [ (0%nat, [CStr "Taj Mahal"; CStr "Uttar Pradesh"; CNull;
                        CStr "Sunrise view"; CNull]) ])
    q "All"
  = Raised match re_compile_icase q with Some _ => AttributeError | None => ReError q end.
Proof.
  intros Hq. unfold apply_filters, search_step.
  destruct (String.eqb_spec q "") as [->|_]; [done|].
  unfold str_contains.
  change (getitem ?df "name")
    with (Column 0 (DObject, [CStr "Taj Mahal"])).
  change (getitem ?df "description") with (Column 2 (DNumeric, [CNull])).
  cbv iota. by destruct (re_compile_icase q).
Qed.

(** * Further properties of the code *)

(** ** Header slugs *)

Lemma slug_idemp (h : string) : slug (slug h) = slug h.
Proof.
  rewrite !slug_string_map.
  rewrite (strip_string_map slug_char (strip h) isspace_slug_char (strip_idemp h)).
  apply string_map_compose, slug_char_idemp.
Qed.

(** X1. A slug is a fixed point of [slug], and it holds no space and no
    upper-case ASCII letter. *)
Theorem slug_normal_form (h : string) :
  slug (slug h) = slug h /\
  forall c, c ∈ String.list_ascii_of_string (slug h) ->
    c <> " "%char /\ is_upper c = false.
Proof.
  split; [apply slug_idemp|]. rewrite slug_string_map.
  intros c (d & -> & _)%elem_of_string_map. apply slug_char_shape.
Qed.

Lemma slug_normal_form_witness :
  "i"%char ∈ String.list_ascii_of_string (slug "  Image URL ") /\
  ("i"%char <> " "%char /\ is_upper "i" = false).
Proof.
  assert (Hin : "i"%char ∈ String.list_ascii_of_string (slug "  Image URL "))
    by by_evaluation.
  split; [done|].
  exact (proj2 (slug_normal_form "  Image URL ") "i"%char Hin).
Defined.

(** ** Bindings *)

Lemma table_option_owner (table : list (string * list string))
    (k k' o : string) (opts opts' : list string) :
  NoDup (mjoin (table.*2)) ->
  (k, opts) ∈ table -> (k', opts') ∈ table -> o ∈ opts -> o ∈ opts' -> k = k'.
Proof.
  induction table as [|[k0 o0] t IH]; intros Hnd; [by intros ?%not_elem_of_nil|].
  cbn in Hnd. apply NoDup_app in Hnd as (_ & Hdisj & Hnd).
  assert (Hjoin : forall k1 opts1, (k1, opts1) ∈ t -> o ∈ opts1 -> o ∈ mjoin (t.*2)).
  { intros k1 opts1 Hin Ho. apply list_elem_of_join. exists opts1. split; [done|].
    apply list_elem_of_fmap. by exists (k1, opts1). }
  intros [H1|H1]%elem_of_cons [H2|H2]%elem_of_cons Ho Ho'; simplify_eq.
  - done.
  - exfalso. by apply (Hdisj o Ho), (Hjoin k' opts').
  - exfalso. by apply (Hdisj o Ho'), (Hjoin k opts).
  - by apply IH.
Qed.

(** X2. A bound label is a header slug and one of the synonyms of its
    field, and no label is bound to two fields. *)
Theorem binding_injective (slugs : list string) (k v : string) :
  (k, v) ∈ find_columns synonyms slugs ->
  v ∈ slugs /\
  (exists opts, (k, opts) ∈ synonyms /\ v ∈ opts) /\
  forall k', (k', v) ∈ find_columns synonyms slugs -> k' = k.
Proof.
  intros Hin.
  pose proof Hin as (opts & Hopts & Hf)%elem_of_find_columns.
  apply first_present_elem in Hf as [Hv Hs].
  split_and!; [done | by exists opts |].
  intros k' (opts' & Hopts' & Hf')%elem_of_find_columns.
  apply first_present_elem in Hf' as [Hv' _].
  by apply (table_option_owner synonyms k' k v opts' opts synonyms_options_NoDup).
Qed.

Lemma binding_injective_witness :
  ("state", "region") ∈ find_columns synonyms ["destination"; "region"; "notes"] /\
  "region" ∈ ["destination"; "region"; "notes"].
Proof.
  assert (Hin : ("state", "region")
                ∈ find_columns synonyms ["destination"; "region"; "notes"])
    by by_evaluation.
  split; [done|].
  exact (proj1 (binding_injective ["destination"; "region"; "notes"] "state" "region" Hin)).
Defined.

(** ** Outcome of the load *)

Lemma unbound_required_header (df0 df0' : DataFrame) :
  columns df0 = columns df0' -> unbound_required df0 = unbound_required df0'.
Proof. unfold unbound_required. by intros ->. Qed.

Lemma final_labels_header (df0 df0' : DataFrame) :
  columns df0 = columns df0' -> final_labels df0 = final_labels df0'.
Proof. intros Hc. rewrite !final_labels_spec. cbv zeta. by rewrite Hc. Qed.

(** X3. Once [pd.read_csv] has returned a frame, what the rest of
    [load_data] does with it depends on the column labels only: two parsed
    frames with the same labels both fail, with the same failure, or both
    succeed, with the same column labels.  No cell of a parsed frame can make
    the steps after the read fail. *)
Theorem load_depends_on_header `{NumberSyntax} (df0 df0' : DataFrame) :
  columns df0 = columns df0' ->
  match load_data (ReadOk df0), load_data (ReadOk df0') with
  | inr df, inr df' => columns df = columns df'
  | inl e, inl e' => e = e'
  | _, _ => False
  end.
Proof.
  intros Hc. cbn [load_data]. rewrite !load_frame_spec. cbv zeta.
  rewrite <- (unbound_required_header df0 df0' Hc), <- (final_labels_header df0 df0' Hc).
  destruct (unbound_required df0); [|done].
  by destruct (repeated "latitude" (final_labels df0) || repeated "longitude" (final_labels df0)).
Qed.

Lemma load_depends_on_header_witness :
  columns scenario_D = columns (mkFrame (columns scenario_D) [] []) /\
  exists df df',
    @load_data decimal_syntax (ReadOk scenario_D) = inr df /\
    @load_data decimal_syntax (ReadOk (mkFrame (columns scenario_D) [] [])) = inr df' /\
    columns df = columns df'.
Proof.
  split; [done|].
  pose proof (@load_depends_on_header decimal_syntax scenario_D
                (mkFrame (columns scenario_D) [] []) eq_refl) as Hload.
  destruct (@load_data decimal_syntax (ReadOk scenario_D)) as [e|df] eqn:H1;
    [by vm_compute in H1|].
  destruct (@load_data decimal_syntax (ReadOk (mkFrame (columns scenario_D) [] [])))
    as [e|df'] eqn:H2; [done|].
  by exists df, df'.
Defined.

(** ** Records of a loaded table *)

Lemma loaded_row (labels : list string) `{NumberSyntax} (rows0 : list (nat * list cell))
    (r : nat * list cell) :
  r ∈ map (coerce_row (coordinate_positions labels))
          (List.filter (row_complete labels ["name"; "state"]) rows0) ->
  exists r0, r0 ∈ rows0 /\ row_complete labels ["name"; "state"] r0 = true /\
             r = coerce_row (coordinate_positions labels) r0.
Proof.
  intros (r0 & <- & Hr0)%list_elem_of_In%in_map_iff.
  apply filter_In in Hr0 as [Hin Hk]. exists r0. by rewrite list_elem_of_In.
Qed.

Lemma cell_at_outside_coordinates `{NumberSyntax} (labels : list string) (i : nat)
    (l : string) (r : nat * list cell) :
  labels !! i = Some l -> l <> "latitude" -> l <> "longitude" ->
  cell_at i (coerce_row (coordinate_positions labels) r) = cell_at i r.
Proof.
  intros Hi Hlat Hlon. rewrite cell_at_coerce_row, bool_decide_false; [done|].
  intros [?|?]%coordinate_positions_spec; congruence.
Qed.

(** X4. Every record of a loaded table has a name and a state: under each
    of the two labels its cell is not null. *)
Theorem loaded_records_named `{NumberSyntax} (src : read_result) (df : DataFrame)
    (r : nat * list cell) (i : nat) (l : string) :
  load_data src = inr df ->
  r ∈ rows df ->
  columns df !! i = Some l ->
  l = "name" \/ l = "state" ->
  cell_at i r <> CNull.
Proof.
  intros Hload Hr Hi Hl.
  apply load_data_success in Hload as (df0 & -> & _ & _ & _ & ->).
  cbn [rows columns] in Hr, Hi.
  apply loaded_row in Hr as (r0 & _ & Hk & ->).
  rewrite (cell_at_outside_coordinates _ i l) by (destruct Hl as [-> | ->]; done).
  pose proof (proj1 (row_complete_spec _ _ r0) Hk i l Hi) as Hnn.
  assert (Hin : l ∈ ["name"; "state"])
    by (destruct Hl as [-> | ->]; [left | right; left]).
  specialize (Hnn Hin). by destruct (cell_at i r0).
Qed.

Lemma loaded_records_named_witness :
  exists df r,
    @load_data decimal_syntax (ReadOk whitespace_name) = inr df /\
    r ∈ rows df /\
    columns df !! 0%nat = Some "name" /\
    cell_at 0 r <> CNull.
Proof.
  destruct (@load_data decimal_syntax (ReadOk whitespace_name)) as [e|df] eqn:Hload;
    [by vm_compute in Hload|].
  pose proof (fun r Hr Hi =>
                @loaded_records_named decimal_syntax _ df r 0%nat "name" Hload Hr Hi
                  (or_introl eq_refl)) as Hnamed.
  vm_compute in Hload. injection Hload as <-.
  eexists _, _. split; [done|]. split; [left|]. split; [done|].
  apply Hnamed; [left | done].
Defined.

(** ** Loading a loaded table *)

Lemma synonyms_key_slug (k : string) (opts : list string) :
  (k, opts) ∈ synonyms -> slug k = k.
Proof.
  unfold synonyms. intros Hin.
  repeat (apply elem_of_cons in Hin as [[= -> ->]|Hin]; [reflexivity|]).
  by apply not_elem_of_nil in Hin.
Qed.

Lemma canonical_of_cases (found : list (string * string)) (l : string) :
  canonical_of found l = l \/ (canonical_of found l, l) ∈ found.
Proof.
  unfold canonical_of.
  destruct (List.find (fun kv => String.eqb kv.2 l) found) as [[k l']|] eqn:Hf; [|by left].
  apply find_some in Hf as [Hin Heq]. cbn [snd] in Heq.
  apply String.eqb_eq in Heq as ->. right. by apply list_elem_of_In.
Qed.

Lemma final_labels_slugged (df0 : DataFrame) :
  map slug (final_labels df0) = final_labels df0.
Proof.
  rewrite final_labels_spec. cbv zeta. rewrite map_map.
  apply map_ext_in. intros l (h & <- & _)%in_map_iff.
  destruct (canonical_of_cases (find_columns synonyms (map slug (columns df0))) (slug h))
    as [->|Hin]; [apply slug_idemp|].
  apply elem_of_find_columns in Hin as (opts & Hopts & _).
  by apply (synonyms_key_slug _ opts).
Qed.

(** Among the labels of a loaded table no label is bound to a field under
    another name. *)
Lemma final_labels_canonical (df0 : DataFrame) (l : string) :
  l ∈ final_labels df0 ->
  canonical_of (find_columns synonyms (final_labels df0)) l = l.
Proof.
  intros Hl.
  destruct (canonical_of_cases (find_columns synonyms (final_labels df0)) l)
    as [?|Hin]; [done|].
  set (k := canonical_of (find_columns synonyms (final_labels df0)) l) in *.
  apply elem_of_find_columns in Hin as (opts & Hopts & Hf).
  destruct (synonyms_head k opts Hopts) as [rest ->].
  destruct (decide (k ∈ final_labels df0)) as [Hk|Hk].
  - unfold first_present in Hf. cbn [List.find] in Hf.
    rewrite bool_decide_true in Hf by done. congruence.
  - exfalso. apply first_present_elem in Hf as [Hlo _].
    assert (Hnone : first_present (k :: rest) (map slug (columns df0)) = None).
    { destruct (first_present (k :: rest) (map slug (columns df0))) eqn:Hfp; [|done].
      exfalso. apply Hk. apply (canonical_label_bound df0 k (k :: rest) Hopts).
      by eexists. }
    rewrite final_labels_spec in Hl. cbv zeta in Hl.
    apply list_elem_of_fmap in Hl as (s & Hls & Hs).
    destruct (canonical_of_cases (find_columns synonyms (map slug (columns df0))) s)
      as [Heq|Hin].
    + rewrite Heq in Hls. subst s.
      by apply (proj1 (first_present_None _ _) Hnone l).
    + rewrite <- Hls in Hin.
      apply elem_of_find_columns in Hin as (opts' & Hopts' & _).
      destruct (synonyms_head l opts' Hopts') as [rest' ->].
      apply Hk. rewrite final_labels_spec. cbv zeta.
      assert (l = k) as <-.
      { apply (table_option_owner synonyms l k l (l :: rest') (k :: rest)
                 synonyms_options_NoDup Hopts' Hopts); [left | done]. }
      apply list_elem_of_fmap. by exists s.
Qed.

Lemma reload_labels (df0 df : DataFrame) :
  columns df = final_labels df0 -> final_labels df = final_labels df0.
Proof.
  intros Hc. rewrite (final_labels_spec df). cbv zeta.
  rewrite Hc, final_labels_slugged.
  rewrite <- (map_id (final_labels df0)) at 3.
  apply map_ext_in. intros l Hl%list_elem_of_In. by apply final_labels_canonical.
Qed.

Lemma coerce_row_lookup `{NumberSyntax} (js : list nat) (r : nat * list cell) (i : nat) :
  (coerce_row js r).2 !! i
  = if bool_decide (i ∈ js) then coerce_cell <$> r.2 !! i else r.2 !! i.
Proof.
  unfold coerce_row. cbn [snd]. induction js as [|j js IH] using rev_ind.
  - cbn [foldl]. case_bool_decide as Hin; [by apply not_elem_of_nil in Hin | done].
  - rewrite foldl_app. cbn [foldl]. rewrite list_lookup_alter.
    destruct (decide (j = i)) as [->|Hne]; rewrite IH.
    + rewrite (bool_decide_true (i ∈ js ++ [i]))
        by (apply elem_of_app; right; by apply list_elem_of_singleton).
      case_bool_decide; [|done].
      destruct (r.2 !! i) as [c|]; [|done]. cbn. by rewrite coerce_cell_idemp.
    + apply (f_equal (fun b : bool => if b then coerce_cell <$> r.2 !! i else r.2 !! i)).
      apply bool_decide_ext. rewrite elem_of_app, list_elem_of_singleton.
      split; [tauto | intros [?|?]; [done | congruence]].
Qed.

Lemma coerce_row_idemp `{NumberSyntax} (js : list nat) (r : nat * list cell) :
  coerce_row js (coerce_row js r) = coerce_row js r.
Proof.
  assert (Hsnd : (coerce_row js (coerce_row js r)).2 = (coerce_row js r).2);
    [|by apply injective_projections].
  apply list_eq. intros i.
  rewrite !coerce_row_lookup. case_bool_decide; [|done].
  destruct (r.2 !! i) as [c|]; [|done]. cbn. by rewrite coerce_cell_idemp.
Qed.

Lemma numeric_at_length (js : list nat) (ds : list dtype) :
  length (numeric_at js ds) = length ds.
Proof.
  unfold numeric_at. induction js as [|j js IH] using rev_ind; [done|].
  rewrite foldl_app. cbn [foldl]. by rewrite length_insert.
Qed.

Lemma numeric_at_lookup (js : list nat) (ds : list dtype) (i : nat) :
  numeric_at js ds !! i
  = if bool_decide (i ∈ js) then (fun _ => DNumeric) <$> ds !! i else ds !! i.
Proof.
  induction js as [|j js IH] using rev_ind.
  - cbn. case_bool_decide as Hin; [by apply not_elem_of_nil in Hin | done].
  - replace (numeric_at (js ++ [j]) ds) with (<[j := DNumeric]> (numeric_at js ds))
      by (unfold numeric_at; by rewrite foldl_app).
    rewrite list_lookup_insert, numeric_at_length.
    destruct (decide (j = i /\ j < length ds)) as [[-> Hlt]|Hno].
    + rewrite (bool_decide_true (i ∈ js ++ [i]))
        by (apply elem_of_app; right; by apply list_elem_of_singleton).
      destruct (lookup_lt_is_Some_2 ds i Hlt) as [d ->]. done.
    + rewrite IH. destruct (decide (j = i)) as [->|Hne].
      * rewrite (bool_decide_true (i ∈ js ++ [i]))
          by (apply elem_of_app; right; by apply list_elem_of_singleton).
        rewrite (lookup_ge_None_2 ds i) by lia. by case_bool_decide.
      * apply (f_equal (fun b : bool =>
                 if b then (fun _ => DNumeric) <$> ds !! i else ds !! i)).
        apply bool_decide_ext. rewrite elem_of_app, list_elem_of_singleton.
        split; [tauto | intros [?|?]; [done | congruence]].
Qed.

Lemma numeric_at_idemp (js : list nat) (ds : list dtype) :
  numeric_at js (numeric_at js ds) = numeric_at js ds.
Proof.
  apply list_eq. intros i. rewrite !numeric_at_lookup.
  case_bool_decide; [|done]. by destruct (ds !! i).
Qed.

Lemma row_complete_coerce_row `{NumberSyntax} (labels : list string) (r : nat * list cell) :
  row_complete labels ["name"; "state"] (coerce_row (coordinate_positions labels) r)
  = row_complete labels ["name"; "state"] r.
Proof.
  apply eq_true_iff_eq. rewrite !row_complete_spec.
  assert (Hcell : forall i l, labels !! i = Some l -> l ∈ ["name"; "state"] ->
            cell_at i (coerce_row (coordinate_positions labels) r) = cell_at i r).
  { intros i l Hi Hl.
    apply elem_of_cons in Hl as [->|Hl]; [|apply list_elem_of_singleton in Hl as ->].
    - by apply (cell_at_outside_coordinates labels i "name").
    - by apply (cell_at_outside_coordinates labels i "state"). }
  split; intros Hall i l Hi Hl.
  - rewrite <- (Hcell i l Hi Hl). by apply (Hall i l).
  - rewrite (Hcell i l Hi Hl). by apply (Hall i l).
Qed.

Lemma missing_columns_labels (df df' : DataFrame) :
  columns df = columns df' -> missing_columns df = missing_columns df'.
Proof. unfold missing_columns, has_column. by intros ->. Qed.

(** X5. A loaded table is a fixed point of the load: handed to the loader
    as the parsed file, it comes back as it is. *)
Theorem reload_fixed_point `{NumberSyntax} (src : read_result) (df : DataFrame) :
  load_data src = inr df -> load_data (ReadOk df) = inr df.
Proof.
  intros Hload.
  apply load_data_success in Hload as (df0 & -> & Hreq & Hlat & Hlon & ->).
  set (labels := final_labels df0) in *.
  set (js := coordinate_positions labels).
  set (df := mkFrame labels (numeric_at js (dtypes df0))
               (map (coerce_row js)
                    (List.filter (row_complete labels ["name"; "state"]) (rows df0)))).
  assert (Hlabels : final_labels df = labels) by (by apply reload_labels).
  cbn [load_data]. rewrite load_frame_spec. cbv zeta. rewrite Hlabels.
  assert (Hun : unbound_required df = []).
  { rewrite <- missing_columns_unbound.
    rewrite (missing_columns_labels _ (canonicalize_columns (normalize_columns df0)))
      by exact Hlabels.
    by rewrite missing_columns_unbound. }
  rewrite Hun, Hlat, Hlon. cbn [orb]. fold js. unfold df. cbn [dtypes rows].
  f_equal. f_equal.
  - apply numeric_at_idemp.
  - rewrite (filter_all (row_complete labels ["name"; "state"])).
    + rewrite map_map. apply map_ext. intros r. apply coerce_row_idemp.
    + intros r (r0 & _ & Hk & ->)%loaded_row.
      by rewrite row_complete_coerce_row.
Qed.

Lemma reload_fixed_point_witness :
  exists df,
    @load_data decimal_syntax (ReadOk scenario_D) = inr df /\
    @load_data decimal_syntax (ReadOk df) = inr df.
Proof.
  destruct (@load_data decimal_syntax (ReadOk scenario_D)) as [e|df] eqn:Hload;
    [by vm_compute in Hload|].
  exists df. split; [done|].
  exact (@reload_fixed_point decimal_syntax (ReadOk scenario_D) df Hload).
Defined.

(** ** Index labels *)

Lemma coerce_row_index `{NumberSyntax} (js : list nat) (rs : list (nat * list cell)) :
  map fst (map (coerce_row js) rs) = map fst rs.
Proof. rewrite map_map. by apply map_ext. Qed.

Lemma apply_filters_rows `{RegexEngine} (T T' : DataFrame) (Q R : string) :
  apply_filters T Q R = Returned T' ->
  exists keep : list cell -> bool,
    T' = mkFrame (columns T) (dtypes T) (List.filter (fun r => keep r.2) (rows T)).
Proof.
  unfold apply_filters.
  destruct (search_step T Q) as [A|e] eqn:HA; cbn [bind]; [|done].
  intros HB. destruct (search_step_rows T Q A HA) as [keepQ ->].
  destruct (state_step_rows _ R T' HB) as [keepR ->]. cbn [rows columns dtypes].
  rewrite filter_twice. by exists (fun cs => keepQ cs && keepR cs).
Qed.

(** X6. The index labels of a filtered view of a loaded table are row
    numbers of the file, in file order; they are distinct when the file's
    are, as the widget keys made from them must be. *)
Theorem index_labels_kept `{NumberSyntax} `{RegexEngine}
    (src : read_result) (df T' : DataFrame) (Q R : string) :
  load_data src = inr df ->
  apply_filters df Q R = Returned T' ->
  exists df0, src = ReadOk df0 /\
    map fst (rows T') `sublist_of` map fst (rows df0) /\
    (NoDup (map fst (rows df0)) -> NoDup (map fst (rows T'))).
Proof.
  intros Hload Hf.
  apply load_data_success in Hload as (df0 & -> & _ & _ & _ & ->).
  apply apply_filters_rows in Hf as [keep ->]. cbn [rows].
  exists df0. split; [done|].
  assert (Hsub : map fst (List.filter (fun r => keep r.2)
                   (map (coerce_row (coordinate_positions (final_labels df0)))
                        (List.filter (row_complete (final_labels df0) ["name"; "state"])
                                     (rows df0))))
                 `sublist_of` map fst (rows df0)).
  { etrans; [apply (fmap_sublist fst), filter_sublist|].
    change (fst <$> ?l) with (map fst l). rewrite coerce_row_index.
    apply (fmap_sublist fst), filter_sublist. }
  split; [done|]. intros Hnd. by apply (sublist_NoDup _ _ Hnd).
Qed.

Lemma index_labels_kept_witness :
  exists df T',
    @load_data decimal_syntax (ReadOk whitespace_name) = inr df /\
    @apply_filters dotted_engine df "fort" "Rajasthan" = Returned T' /\
    map fst (rows T') = [2%nat].
Proof.
  destruct (@load_data decimal_syntax (ReadOk whitespace_name)) as [e|df] eqn:Hload;
    [by vm_compute in Hload|].
  destruct (@apply_filters dotted_engine df "fort" "Rajasthan") as [T'|e] eqn:Hf.
  - pose proof (@index_labels_kept decimal_syntax dotted_engine _ _ _ _ _ Hload Hf)
      as (df0 & _ & _ & _).
    exists df, T'. split_and!; [done | done |].
    vm_compute in Hload. injection Hload as <-.
    vm_compute in Hf. by injection Hf as <-.
  - exfalso. vm_compute in Hload. injection Hload as <-. by vm_compute in Hf.
Defined.

(** ** Columns the filters read *)

Lemma getitem_present (df : DataFrame) (l : string) :
  l ∈ columns df -> getitem df l <> Missing.
Proof.
  intros Hl. unfold getitem.
  destruct (positions l (columns df)) as [|i [|i' ps]] eqn:Hp; [|done..].
  by apply positions_nil in Hp.
Qed.

Lemma loaded_required_present `{NumberSyntax} (src : read_result) (df : DataFrame)
    (c : string) :
  load_data src = inr df -> c ∈ required_columns -> c ∈ columns df.
Proof.
  intros Hload Hc.
  apply load_data_success in Hload as (df0 & -> & Hreq & _ & _ & ->). cbn [columns].
  assert (Hmiss : missing_columns (canonicalize_columns (normalize_columns df0)) = [])
    by (by rewrite missing_columns_unbound).
  destruct (decide (c ∈ final_labels df0)) as [?|Hno]; [done|].
  exfalso. assert (Hin : c ∈ missing_columns (canonicalize_columns (normalize_columns df0))).
  { unfold missing_columns. apply elem_of_filter. split; [done|].
    unfold has_column. apply negb_true_iff. by apply bool_decide_eq_false. }
  rewrite Hmiss in Hin. by apply not_elem_of_nil in Hin.
Qed.

(** X7. On a loaded table the filters never raise [KeyError]: each column
    they read is one the load has checked for. *)
Theorem filters_find_their_columns `{NumberSyntax} `{RegexEngine}
    (src : read_result) (df : DataFrame) (Q R l : string) :
  load_data src = inr df ->
  apply_filters df Q R <> Raised (KeyError l).
Proof.
  intros Hload.
  assert (Hreq : forall c, c ∈ required_columns -> getitem df c <> Missing).
  { intros c Hc. by apply getitem_present, (loaded_required_present src). }
  assert (Hstr : forall c A, c ∈ required_columns ->
            str_contains (getitem df c) c Q <> Raised (KeyError A)).
  { intros c A Hc. specialize (Hreq c Hc). unfold str_contains.
    destruct (getitem df c) as [|i [[|] cells]|]; try done.
    by destruct (re_compile_icase Q). }
  unfold apply_filters.
  destruct (search_step df Q) as [A|e] eqn:HA; cbn [bind].
  - destruct (search_step_rows df Q A HA) as [keep ->].
    unfold state_step, eq_scalar. destruct (String.eqb R "All"); [done|].
    assert (Hst : getitem (mkFrame (columns df) (dtypes df)
                     (List.filter (fun r => keep r.2) (rows df))) "state" <> Missing).
    { apply getitem_present. cbn [columns].
      apply (loaded_required_present src); [done | by_evaluation]. }
    destruct (getitem _ "state") as [|j [dt cells]|]; done.
  - intros [= ->]. revert HA. unfold search_step.
    destruct (String.eqb Q ""); [done|].
    pose proof (Hstr "name" l ltac:(by_evaluation)) as H1.
    pose proof (Hstr "description" l ltac:(by_evaluation)) as H2.
    pose proof (Hstr "popular_attractions" l ltac:(by_evaluation)) as H3.
    destruct (str_contains (getitem df "name") "name" Q) as [m1|e1]; cbn [bind];
      [|congruence].
    destruct (str_contains (getitem df "description") "description" Q) as [m2|e2];
      cbn [bind]; [|congruence].
    destruct (str_contains (getitem df "popular_attractions") "popular_attractions" Q)
      as [m3|e3]; cbn [bind]; [done | congruence].
Qed.

Lemma filters_find_their_columns_witness :
  @load_data decimal_syntax (ReadOk scenario_A) = inr scenario_A_loaded /\
  @apply_filters dotted_engine scenario_A_loaded "taj" "Goa" <> Raised (KeyError "state").
Proof.
  assert (Hload : @load_data decimal_syntax (ReadOk scenario_A) = inr scenario_A_loaded)
    by (by vm_compute).
  split; [done|].
  exact (@filters_find_their_columns decimal_syntax dotted_engine _ _ "taj" "Goa" "state"
           Hload).
Defined.

(** ** What the search box reads *)

Lemma getitem_agree (T T' : DataFrame) (l : string) :
  columns T = columns T' -> dtypes T = dtypes T' ->
  (forall i, columns T !! i = Some l ->
     map (cell_at i) (rows T) = map (cell_at i) (rows T')) ->
  getitem T l = getitem T' l.
Proof.
  intros Hc Hd Hcells. unfold getitem. rewrite <- Hc, <- Hd.
  destruct (positions l (columns T)) as [|i [|i' ps]] eqn:Hp; [done| |done].
  rewrite (Hcells i); [done|]. apply positions_spec. rewrite Hp. left.
Qed.

Lemma select_index_agree (rs rs' : list (nat * list cell)) (mask : list bool) :
  map fst rs = map fst rs' ->
  map fst (map fst (List.filter snd (zip rs mask)))
  = map fst (map fst (List.filter snd (zip rs' mask))).
Proof.
  revert rs' mask. induction rs as [|r rs IH]; intros [|r' rs'] mask Hix; try done.
  injection Hix as Hr Hrs. destruct mask as [|b mask]; [done|].
  cbn [zip zip_with List.filter snd]. destruct b; cbn [map fst].
  - by rewrite Hr, (IH rs' mask Hrs).
  - by apply IH.
Qed.

(** X8. The search box reads the name, description and attraction cells
    and nothing else: two tables with the same labels, dtypes and index
    labels that agree in those three columns give the same error, or select
    the records with the same index labels, whatever the states, images and
    coordinates are. *)
Theorem search_reads_three_columns `{RegexEngine} (T T' : DataFrame) (q : string) :
  columns T = columns T' ->
  dtypes T = dtypes T' ->
  map fst (rows T) = map fst (rows T') ->
  (forall i l, columns T !! i = Some l ->
     l ∈ ["name"; "description"; "popular_attractions"] ->
     map (cell_at i) (rows T) = map (cell_at i) (rows T')) ->
  match apply_filters T q "All", apply_filters T' q "All" with
  | Returned A, Returned A' => map fst (rows A) = map fst (rows A')
  | Raised e, Raised e' => e = e'
  | _, _ => False
  end.
Proof.
  intros Hc Hd Hix Hcells.
  assert (Hg : forall l, l ∈ ["name"; "description"; "popular_attractions"] ->
            getitem T l = getitem T' l).
  { intros l Hl. apply getitem_agree; [done | done |]. intros i Hi. by apply (Hcells i l). }
  unfold apply_filters, search_step.
  destruct (String.eqb q ""); [done|].
  rewrite (Hg "name") by by_evaluation.
  rewrite (Hg "description") by by_evaluation.
  rewrite (Hg "popular_attractions") by by_evaluation.
  destruct (str_contains (getitem T' "name") "name" q) as [m1|e1]; cbn [bind]; [|done].
  destruct (str_contains (getitem T' "description") "description" q) as [m2|e2];
    cbn [bind]; [|done].
  destruct (str_contains (getitem T' "popular_attractions") "popular_attractions" q)
    as [m3|e3]; cbn [bind]; [|done].
  change (state_step ?A "All") with (Returned A). cbn [rows boolean_index].
  by apply select_index_agree.
Qed.

Lemma search_reads_three_columns_witness :
  match @apply_filters dotted_engine scenario_C "fort" "All",
        @apply_filters dotted_engine
          (mkFrame (columns scenario_C) (dtypes scenario_C)
             [ (0%nat, [CStr "Taj Mahal"; CStr "Fort Kochi"; CStr "Iconic mausoleum";
                        CStr "Sunrise view"; CStr "fort.jpg"]);
               (1%nat, [CStr "Amber Fort"; CStr "Goa"; CStr "Hill fort"; CNull;
                        CNull]) ])
          "fort" "All" with
  | Returned A, Returned A' => map fst (rows A) = map fst (rows A')
  | Raised e, Raised e' => e = e'
  | _, _ => False
  end.
Proof.
  apply (@search_reads_three_columns dotted_engine); [done | done | done |].
  intros i l Hi Hl.
  do 5 (destruct i as [|i];
        [injection Hi as <-; first [done | exfalso; revert Hl; by_evaluation]|]).
  done.
Defined.

(** ** The options of the state selector *)

Lemma compare_not_Gt_trans (s t u : string) :
  String.compare s t <> Gt -> String.compare t u <> Gt -> String.compare s u <> Gt.
Proof.
  revert t u. induction s as [|a s IH]; intros [|b t] [|c u]; cbn [String.compare]; try done.
  unfold Ascii.compare.
  destruct (N.compare_spec (N_of_ascii a) (N_of_ascii b)) as [Hab|Hab|Hab];
    destruct (N.compare_spec (N_of_ascii b) (N_of_ascii c)) as [Hbc|Hbc|Hbc];
    destruct (N.compare_spec (N_of_ascii a) (N_of_ascii c)) as [Hac|Hac|Hac];
    try done; try lia.
  apply IH.
Qed.

Global Instance str_le_trans : Transitive str_le.
Proof.
  intros s t u. unfold str_le, String.leb.
  pose proof (compare_not_Gt_trans s t u) as Htr.
  destruct (String.compare s t), (String.compare t u), (String.compare s u);
    try done; intros _ _; by exfalso; apply Htr.
Qed.

Global Instance str_le_total : Total str_le.
Proof.
  intros s t. unfold str_le.
  destruct (String.leb_total s t) as [-> | ->]; [by left | by right].
Qed.

Lemma unique_from_elem (seen values : list string) (x : string) :
  x ∈ unique_from seen values <-> x ∈ values /\ x ∉ seen.
Proof.
  revert seen. induction values as [|v values IH]; intros seen; cbn [unique_from].
  - split; [by intros ?%not_elem_of_nil | by intros [?%not_elem_of_nil _]].
  - case_bool_decide as Hv.
    + rewrite IH, elem_of_cons. split; [tauto|].
      intros [[->|?] ?]; [done | tauto].
    + rewrite !elem_of_cons, IH, elem_of_cons. split.
      * intros [->|[? ?]]; [tauto|]. split; [tauto|]. tauto.
      * intros [[->|?] ?]; [by left|].
        destruct (decide (x = v)) as [->|?]; [by left | right; tauto].
Qed.

Lemma unique_from_NoDup (seen values : list string) : NoDup (unique_from seen values).
Proof.
  revert seen. induction values as [|v values IH]; intros seen; cbn [unique_from].
  - constructor.
  - case_bool_decide; [apply IH|]. apply NoDup_cons. split; [|apply IH].
    rewrite unique_from_elem, elem_of_cons. tauto.
Qed.

Lemma sorted_unique_spec (states : list string) :
  StronglySorted str_le (sorted (unique states)) /\
  NoDup (sorted (unique states)) /\
  forall s, s ∈ sorted (unique states) <-> s ∈ states.
Proof.
  unfold sorted, unique. split_and!.
  - apply (StronglySorted_merge_sort str_le); apply _.
  - rewrite merge_sort_Permutation. apply unique_from_NoDup.
  - intros s. rewrite merge_sort_Permutation, unique_from_elem.
    split; [tauto|]. intros ?. split; [done | apply not_elem_of_nil].
Qed.

Lemma text_values_elem (cells : list cell) (states : list string) (s : string) :
  text_values cells = Some states -> s ∈ states <-> CStr s ∈ cells.
Proof.
  unfold text_values. intros Hall%mapM_Some.
  induction Hall as [|c t cells states Hc _ IH].
  - split; by intros ?%not_elem_of_nil.
  - destruct c as [|t'|x]; try done. injection Hc as ->.
    rewrite !elem_of_cons, IH. split; intros [?|?]; try tauto; [left; congruence|].
    left. congruence.
Qed.

Lemma state_options_Returned (T : DataFrame) (opts : list string) :
  state_options T = Returned opts <->
  exists j states,
    positions "state" (columns T) = [j] /\
    text_values (map (cell_at j) (rows T)) = Some states /\
    opts = "All" :: sorted (unique states).
Proof.
  unfold state_options. destruct (getitem T "state") as [|j [dt cells]|] eqn:Hg.
  - split; [done|]. intros (j & ? & Hp & _). unfold getitem in Hg. by rewrite Hp in Hg.
  - apply getitem_Column in Hg as [Hp [= -> ->]].
    destruct (text_values (map (cell_at j) (rows T))) as [states|] eqn:Ht.
    + split.
      * intros [= <-]. by exists j, states.
      * intros (j' & states' & Hp' & Ht' & ->).
        assert (j' = j) as -> by congruence. congruence.
    + split; [done|]. intros (j' & states' & Hp' & Ht' & _).
      assert (j' = j) as -> by congruence. congruence.
  - split; [done|]. intros (j & ? & Hp & _). unfold getitem in Hg. by rewrite Hp in Hg.
Qed.

(** X9. When [state] names one column of text, the selector offers [All]
    followed by the states of the records, each once, in ascending order of
    Python strings: every record's state is offered, and every option after
    the first is the state of some record. *)
Theorem state_options_spec (T : DataFrame) (j : nat) :
  positions "state" (columns T) = [j] ->
  (forall r, r ∈ rows T -> is_text (cell_at j r) = true) ->
  exists rest,
    state_options T = Returned ("All" :: rest) /\
    StronglySorted str_le rest /\
    NoDup rest /\
    forall s, s ∈ rest <-> exists r, r ∈ rows T /\ cell_at j r = CStr s.
Proof.
  intros Hp Htext.
  assert (exists states, text_values (map (cell_at j) (rows T)) = Some states)
    as [states Hs].
  { apply mapM_is_Some, Forall_forall. intros c (r & -> & Hr)%list_elem_of_fmap.
    specialize (Htext r Hr). cbn. by destruct (cell_at j r). }
  exists (sorted (unique states)).
  destruct (sorted_unique_spec states) as (Hsorted & Hnd & Hmem).
  split_and!; [|done|done|].
  - apply state_options_Returned. by exists j, states.
  - intros s. rewrite Hmem, (text_values_elem _ _ s Hs), list_elem_of_fmap.
    split; intros (r & ? & ?); by exists r.
Qed.

Lemma state_options_spec_witness :
  positions "state" (columns scenario_C) = [1%nat] /\
  (forall r, r ∈ rows scenario_C -> is_text (cell_at 1 r) = true) /\
  state_options scenario_C = Returned ["All"; "Rajasthan"; "Uttar Pradesh"] /\
  exists rest,
    state_options scenario_C = Returned ("All" :: rest) /\
    StronglySorted str_le rest /\ NoDup rest.
Proof.
  assert (Ht : forall r, r ∈ rows scenario_C -> is_text (cell_at 1 r) = true).
  { intros r Hr.
    apply elem_of_cons in Hr as [->|Hr]; [done|].
    by apply list_elem_of_singleton in Hr as ->. }
  split; [done|]. split; [done|]. split; [by vm_compute|].
  destruct (state_options_spec scenario_C 1 eq_refl Ht) as (rest & Hopts & Hs & Hnd & _).
  by exists rest.
Defined.

(** X10. Every state the selector offers selects something: chosen with an
    empty query, an option other than [All] returns exactly the records with
    that state, and there is at least one. *)
Theorem offered_state_selects `{RegexEngine} (T : DataFrame) (opts : list string)
    (s : string) :
  state_options T = Returned opts ->
  s ∈ opts ->
  s <> "All" ->
  exists j B,
    positions "state" (columns T) = [j] /\
    apply_filters T "" s = Returned B /\
    rows B = List.filter (fun r => bool_decide (cell_at j r = CStr s)) (rows T) /\
    rows B <> [].
Proof.
  intros (j & states & Hp & Hs & ->)%state_options_Returned Hin Hne.
  apply elem_of_cons in Hin as [?|Hin]; [done|].
  apply (proj2 (proj2 (sorted_unique_spec states))) in Hin.
  apply (text_values_elem _ _ s Hs), list_elem_of_fmap in Hin as (r & Hcell & Hr).
  exists j. eexists. split; [done|].
  unfold apply_filters. cbn [search_step String.eqb bind].
  split; [apply state_step_Returned; [done | by exists j]|].
  cbn [rows].
  assert (Hpred : forall r', row_in_state s j r' = bool_decide (cell_at j r' = CStr s)).
  { intros r'. unfold row_in_state, cell_is.
    destruct (cell_at j r') as [|t|x]; [by rewrite bool_decide_false| |by rewrite bool_decide_false].
    destruct (String.eqb_spec t s) as [->|Hts].
    - by rewrite bool_decide_true.
    - rewrite bool_decide_false; [done | congruence]. }
  rewrite (filter_ext _ _ Hpred). split; [done|].
  intros Hnil.
  assert (Hmem : r ∈ List.filter (fun r' => bool_decide (cell_at j r' = CStr s)) (rows T)).
  { apply elem_of_filter. split; [done|]. by apply bool_decide_eq_true. }
  rewrite Hnil in Hmem. by apply not_elem_of_nil in Hmem.
Qed.

Lemma offered_state_selects_witness :
  state_options scenario_C = Returned ["All"; "Rajasthan"; "Uttar Pradesh"] /\
  exists B,
    @apply_filters dotted_engine scenario_C "" "Rajasthan" = Returned B /\
    rows B <> [].
Proof.
  assert (Hopts : state_options scenario_C = Returned ["All"; "Rajasthan"; "Uttar Pradesh"])
    by (by vm_compute).
  split; [done|].
  destruct (@offered_state_selects dotted_engine scenario_C _ "Rajasthan" Hopts)
    as (j & B & _ & HB & _ & Hne); [by_evaluation | done |].
  by exists B.
Defined.

(** ** Markers and map buttons *)

Lemma positions_unrepeated (l : string) (labels : list string) :
  repeated l labels = false ->
  positions l labels = [] \/ exists i, positions l labels = [i].
Proof.
  unfold repeated. destruct (positions l labels) as [|i [|i' ps]]; [by left| |done].
  intros _. right. by exists i.
Qed.

Lemma loaded_coordinate_cell `{NumberSyntax} (labels : list string)
    (rows0 : list (nat * list cell)) (r : nat * list cell) (coord : string) (i : nat) :
  r ∈ map (coerce_row (coordinate_positions labels))
          (List.filter (row_complete labels ["name"; "state"]) rows0) ->
  coord = "latitude" \/ coord = "longitude" ->
  positions coord labels = [i] ->
  notnull (cell_at i r) = is_number (cell_at i r).
Proof.
  intros (r0 & _ & _ & ->)%loaded_row Hcoord Hp.
  rewrite cell_at_coerce_row, bool_decide_true; [apply coerce_cell_number|].
  apply coordinate_positions_spec.
  assert (Hi : labels !! i = Some coord) by (apply positions_spec; rewrite Hp; left).
  destruct Hcoord as [-> | ->]; [by left | by right].
Qed.


Lemma marker_indexes (i j : nat) (rs : list (nat * list cell)) :
  map (fun m : nat * cell * cell => m.1.1)
      (omap (fun r => if is_number (cell_at i r) && is_number (cell_at j r)
                      then Some (r.1, cell_at i r, cell_at j r) else None) rs)
  = map fst (List.filter (fun r => is_number (cell_at i r) && is_number (cell_at j r)) rs).
Proof.
  induction rs as [|r rs IH]; [done|]. cbn [omap list_omap List.filter].
  destruct (is_number (cell_at i r) && is_number (cell_at j r)); cbn [map fst]; by rewrite IH.
Qed.

Lemma filter_false {A : Type} (l : list A) : List.filter (fun _ => false) l = [].
Proof. by induction l. Qed.

(** The two places of [main] that ask whether a record has a position, on
    a view of a loaded table. *)
Lemma position_of_loaded `{NumberSyntax} (src : read_result) (df filtered_df : DataFrame) :
  load_data src = inr df ->
  columns filtered_df = columns df ->
  (forall r, r ∈ rows filtered_df -> r ∈ rows df) ->
  exists shown : nat * list cell -> bool,
    (exists ms, map_markers df filtered_df = Returned ms /\
       map (fun m : nat * cell * cell => m.1.1) ms
       = map fst (List.filter shown (rows filtered_df))) /\
    (forall r, r ∈ rows filtered_df -> view_on_map filtered_df r = Returned (shown r)) /\
    (has_column df "latitude" && has_column df "longitude" = false ->
     forall r, shown r = false).
Proof.
  intros Hload Hcols Hsub.
  apply load_data_success in Hload as (df0 & -> & _ & Hlat & Hlon & ->).
  cbn [rows columns] in *. set (labels := final_labels df0) in *.
  unfold map_markers, view_on_map, has_column. rewrite Hcols. cbn [columns].
  destruct (positions_unrepeated _ _ Hlat) as [Hi|[i Hi]].
  { exists (fun _ => false).
    rewrite (bool_decide_false ("latitude" ∈ labels)) by (by apply positions_nil).
    cbn [andb]. split_and!; [|done|done].
    exists []. split; [done|]. by rewrite filter_false. }
  destruct (positions_unrepeated _ _ Hlon) as [Hj|[j Hj]].
  { exists (fun _ => false).
    rewrite (bool_decide_false ("longitude" ∈ labels)) by (by apply positions_nil).
    rewrite andb_false_r. split_and!; [|done|done].
    exists []. split; [done|]. by rewrite filter_false. }
  exists (fun r => is_number (cell_at i r) && is_number (cell_at j r)).
  rewrite (bool_decide_true ("latitude" ∈ labels))
    by (apply list_elem_of_lookup; exists i; apply positions_spec; rewrite Hi; left).
  rewrite (bool_decide_true ("longitude" ∈ labels))
    by (apply list_elem_of_lookup; exists j; apply positions_spec; rewrite Hj; left).
  cbn [andb].
  assert (Hnum : forall r, r ∈ rows filtered_df ->
            notnull (cell_at i r) = is_number (cell_at i r) /\
            notnull (cell_at j r) = is_number (cell_at j r)).
  { intros r Hr%Hsub. split.
    - by apply (loaded_coordinate_cell labels (rows df0) r "latitude"); [|left|].
    - by apply (loaded_coordinate_cell labels (rows df0) r "longitude"); [|right|]. }
  split_and!.
  - eexists. split.
    + apply (markers_of_spec filtered_df i j); by rewrite ?Hcols.
    + apply marker_indexes.
  - intros r Hr. unfold row_notnull. rewrite Hcols. cbn [columns]. rewrite Hi, Hj.
    cbn [bind]. destruct (Hnum r Hr) as [-> ->].
    by destruct (is_number (cell_at i r)).
  - done.
Qed.

(** X11. On a view of a loaded table the marker loop never raises; the
    markers follow the order of the records, at most one per record; and
    there is none unless the table has both a latitude and a longitude
    column. *)
Theorem markers_follow_rows `{NumberSyntax} (src : read_result)
    (df filtered_df : DataFrame) :
  load_data src = inr df ->
  columns filtered_df = columns df ->
  (forall r, r ∈ rows filtered_df -> r ∈ rows df) ->
  exists ms,
    map_markers df filtered_df = Returned ms /\
    map (fun m : nat * cell * cell => m.1.1) ms `sublist_of` map fst (rows filtered_df) /\
    (has_column df "latitude" && has_column df "longitude" = false -> ms = []).
Proof.
  intros Hload Hcols Hsub.
  destruct (position_of_loaded src df filtered_df Hload Hcols Hsub)
    as (shown & (ms & Hms & Hix) & _ & Hnone).
  exists ms. split_and!; [done | |].
  - rewrite Hix. apply (fmap_sublist fst), filter_sublist.
  - intros Hno. specialize (Hnone Hno).
    rewrite (filter_ext shown (fun _ => false)), filter_false in Hix by done.
    by destruct ms.
Qed.

Lemma markers_follow_rows_witness :
  exists df ms,
    @load_data decimal_syntax (ReadOk scenario_D) = inr df /\
    map_markers df df = Returned ms /\ ms = [].
Proof.
  destruct (@load_data decimal_syntax (ReadOk scenario_D)) as [e|df] eqn:Hload;
    [by vm_compute in Hload|].
  destruct (@markers_follow_rows decimal_syntax _ df df Hload eq_refl (fun r Hr => Hr))
    as (ms & Hms & _ & Hnone).
  exists df, ms. split_and!; [done | done |].
  apply Hnone. vm_compute in Hload. by injection Hload as <-.
Defined.



(** ** Attractions *)

Lemma split_length (sep : ascii) (s : string) :
  length (split sep s) = S (count_char sep s).
Proof.
  induction s as [|c s IH]; [done|]. cbn [split count_char].
  destruct (Ascii.eqb c sep); cbn [length]; [by rewrite IH|].
  destruct (split sep s) as [|p ps]; [done|]. cbn [length] in *. lia.
Qed.

Lemma split_pieces (sep : ascii) (s p : string) :
  p ∈ split sep s -> count_char sep p = 0.
Proof.
  revert p. induction s as [|c s IH]; intros p; cbn [split].
  - by intros ->%list_elem_of_singleton.
  - destruct (Ascii.eqb c sep) eqn:Hc.
    + intros [->|Hp]%elem_of_cons; [done | by apply IH].
    + pose proof (split_length sep s) as Hlen.
      destruct (split sep s) as [|q qs]; [done|].
      intros [->|Hp]%elem_of_cons.
      * cbn [count_char]. rewrite Hc. apply IH. left.
      * apply IH. by right.
Qed.

Lemma split_app (sep : ascii) (s t : string) :
  split sep (s +:+ String sep t) = split sep s ++ split sep t.
Proof.
  induction s as [|c s IH].
  - change ("" +:+ String sep t) with (String sep t). cbn [split].
    by rewrite Ascii.eqb_refl.
  - change (String c s +:+ String sep t) with (String c (s +:+ String sep t)).
    cbn [split]. rewrite IH. destruct (Ascii.eqb c sep); [done|].
    pose proof (split_length sep s) as Hlen.
    by destruct (split sep s) as [|p ps].
Qed.

Lemma split_whole (sep : ascii) (s : string) :
  count_char sep s = 0 -> split sep s = [s].
Proof.
  induction s as [|c s IH]; [done|]. cbn [split count_char].
  destruct (Ascii.eqb c sep); [done|]. intros Hs. by rewrite (IH Hs).
Qed.

Lemma count_char_lstrip (c : ascii) (s : string) :
  count_char c (lstrip s) <= count_char c s.
Proof.
  induction s as [|d s IH]; [done|]. cbn [lstrip].
  destruct (isspace d); [|done]. cbn [count_char]. lia.
Qed.

Lemma count_char_rstrip (c : ascii) (s : string) :
  count_char c (rstrip s) <= count_char c s.
Proof.
  induction s as [|d s IH]; [done|]. cbn [rstrip].
  destruct (rstrip s) as [|e r].
  - destruct (isspace d); cbn [count_char]; lia.
  - cbn [count_char] in *. lia.
Qed.

Lemma count_char_strip (c : ascii) (s : string) :
  count_char c s = 0 -> count_char c (strip s) = 0.
Proof.
  intros Hs. unfold strip.
  pose proof (count_char_rstrip c (lstrip s)). pose proof (count_char_lstrip c s). lia.
Qed.

(** X13. An attractions value with n commas is listed as n + 1 entries;
    no entry holds a comma or begins or ends with white space; the entries
    of two values joined by a comma are those of the first followed by those
    of the second, so that a comma at the end adds an empty entry; and a
    value without a comma is one entry, the value stripped. *)
Theorem attractions_spec (value : string) :
  length (attractions value) = S (count_char "," value) /\
  (forall a, a ∈ attractions value -> strip a = a /\ count_char "," a = 0) /\
  (forall rest, attractions (value +:+ "," +:+ rest)
                = attractions value ++ attractions rest) /\
  attractions (value +:+ ",") = attractions value ++ [""] /\
  (count_char "," value = 0 -> attractions value = [strip value]).
Proof.
  unfold attractions. split_and!.
  - by rewrite length_map, split_length.
  - intros a (p & -> & Hp)%list_elem_of_fmap. split; [apply strip_idemp|].
    by apply count_char_strip, (split_pieces "," value).
  - intros rest. change ("," +:+ rest) with (String "," rest).
    by rewrite split_app, map_app.
  - by rewrite (split_app "," value ""), map_app.
  - intros Hv. by rewrite split_whole.
Qed.

Lemma attractions_spec_witness :
  count_char "," "Taj Mahal;sunrise view" = 0 /\
  attractions "Taj Mahal;sunrise view" = ["Taj Mahal;sunrise view"] /\
  attractions " Baga Beach , Fort Aguada,,Dudhsagar Falls,"
  = ["Baga Beach"; "Fort Aguada"; ""; "Dudhsagar Falls"; ""].
Proof.
  split; [done|]. split; [|by vm_compute].
  exact (proj2 (proj2 (proj2 (proj2 (attractions_spec "Taj Mahal;sunrise view")))) eq_refl).
Defined.

(** ** A coordinate label on two columns *)

Lemma repeated_two (l : string) (labels : list string) (i j : nat) :
  i <> j -> labels !! i = Some l -> labels !! j = Some l -> repeated l labels = true.
Proof.
  intros Hne Hi%positions_spec Hj%positions_spec. unfold repeated.
  destruct (positions l labels) as [|a [|b ps]]; [| |done].
  - by apply not_elem_of_nil in Hi.
  - apply list_elem_of_singleton in Hi, Hj. congruence.
Qed.

(** X14. When the required fields are bound and two columns of the file
    end up under the label [latitude], or two under [longitude], the load
    fails with the message of [pd.to_numeric], whatever the rows hold. *)
Theorem repeated_coordinate_fails `{NumberSyntax} (df0 : DataFrame) (coord : string)
    (i j : nat) :
  coord = "latitude" \/ coord = "longitude" ->
  unbound_required df0 = [] ->
  i <> j ->
  final_labels df0 !! i = Some coord ->
  final_labels df0 !! j = Some coord ->
  load_data (ReadOk df0) = inl (Unknown to_numeric_message).
Proof.
  intros Hcoord Hreq Hne Hi Hj. cbn [load_data]. rewrite load_frame_spec. cbv zeta.
  rewrite Hreq. pose proof (repeated_two coord _ i j Hne Hi Hj) as Hrep.
  destruct Hcoord as [-> | ->]; rewrite Hrep; [done | by rewrite orb_true_r].
Qed.

Lemma repeated_coordinate_fails_witness :
  unbound_required two_latitudes = [] /\
  final_labels two_latitudes !! 5%nat = Some "latitude" /\
  final_labels two_latitudes !! 6%nat = Some "latitude" /\
  @load_data decimal_syntax (ReadOk two_latitudes) = inl (Unknown to_numeric_message).
Proof.
  split_and!; [by vm_compute .. |].
  apply (@repeated_coordinate_fails decimal_syntax two_latitudes "latitude" 5 6);
    [by left | by vm_compute | done | by vm_compute | by vm_compute].
Defined.

(** ** Letter case of the query *)

(** X15. For an engine that keeps to its interface, on a table of ASCII
    text with the three text columns, two queries of ordinary ASCII
    characters that differ in letter case only select the same records. *)
Theorem query_case_ignored `{E : RegexEngine} (T : DataFrame) (q q' : string)
    (i1 i2 i3 : nat) :
  engine_lawful E ->
  q <> "" -> q' <> "" ->
  plain_pattern q = true -> plain_pattern q' = true ->
  lower q = lower q' ->
  text_column T "name" i1 -> text_column T "description" i2 ->
  text_column T "popular_attractions" i3 ->
  (forall r i s, r ∈ rows T -> cell_at i r = CStr s -> is_ascii s = true) ->
  apply_filters T q "All" = apply_filters T q' "All".
Proof.
  intros [Hlaw _] Hq Hq' Hp Hp' Hlow H1 H2 H3 Hascii.
  assert (Hstep : forall p, p <> "" -> plain_pattern p = true ->
            apply_filters T p "All"
            = Returned (mkFrame (columns T) (dtypes T)
                 (List.filter (fun r => cell_has p (cell_at i1 r) || cell_has p (cell_at i2 r)
                                        || cell_has p (cell_at i3 r)) (rows T)))).
  { intros p Hne Hplain.
    destruct (Hlaw p (plain_is_dotted p Hplain)) as (search & Hc & Hs).
    unfold apply_filters.
    rewrite (proj2 (search_step_Returned T p _ Hne))
      by (exists search, i1, i2, i3; split_and!; done).
    cbn [bind]. change (state_step ?A "All") with (Returned A). do 2 f_equal.
    apply filter_ext_in. intros r Hr%list_elem_of_In.
    assert (Hhit : forall i, text_hit search (cell_at i r) = cell_has p (cell_at i r)).
    { intros i. destruct (cell_at i r) as [|s|x] eqn:Hcell; [done| |done].
      cbn [text_hit cell_has].
      by rewrite (Hs s (Hascii r i s Hr Hcell)), plain_search_substring. }
    unfold row_hit. by rewrite !Hhit. }
  rewrite (Hstep q Hq Hp), (Hstep q' Hq' Hp'). do 2 f_equal.
  apply filter_ext. intros r.
  assert (Hcell : forall c, cell_has q c = cell_has q' c).
  { intros [|s|x]; [done| |done]. cbn [cell_has]. unfold icase_substring. by rewrite Hlow. }
  by rewrite !Hcell.
Qed.

Lemma query_case_ignored_witness :
  engine_lawful dotted_engine /\
  lower "TAJ" = lower "taj" /\
  @apply_filters dotted_engine scenario_C "TAJ" "All"
  = @apply_filters dotted_engine scenario_C "taj" "All".
Proof.
  split; [apply dotted_engine_lawful|]. split; [done|].
  apply (@query_case_ignored dotted_engine scenario_C "TAJ" "taj" 0 2 3);
    try done; [apply dotted_engine_lawful|].
  intros r i s Hr Hcell.
  apply elem_of_cons in Hr as [->|Hr]; [|apply list_elem_of_singleton in Hr as ->].
  - do 5 (destruct i as [|i]; [by vm_compute in Hcell; simplify_eq|]). done.
  - do 5 (destruct i as [|i]; [by vm_compute in Hcell; simplify_eq|]). done.
Defined.
